(** * The GM ticket registry of src/game/GMTicketMgr.h

    A shallow embedding of the classes [GMTicket] and [GMTicketMgr] and
    the properties of the registry: creation order, replacement, removal,
    the two lookups and the global accept flag.

    The manager keeps two containers:
    - [m_GMTicketMap], a [std::map<ObjectGuid, GMTicket>] that owns the
      tickets, here a [gmap];
    - [m_GMTicketListByCreatingOrder], a [std::list<GMTicket*>] of
      pointers into the nodes of that map, here a list of [GMTicketPtr].

    A [std::map] never moves a node, and it has one node per key, so the
    address of the ticket stored in a live node is identified by the key
    of the node: [TicketAt k] stands for [&itr->second] where
    [itr->first == k].  Reading through such a pointer is a lookup in the
    map, which keeps the aliasing of the two containers: a ticket changed
    in the map is changed for every pointer of the list. *)

From stdpp Require Import base numbers option list gmap strings.

Local Open Scope N_scope.

(** ** ObjectGuid *)

(** Modelled from the spec: the class [ObjectGuid] (ObjectGuid.h is not
    among the sources).  The spec describes an opaque identifier that can
    be compared for equality and order and has a distinguished empty value
    meaning "no player".  Here it wraps an unsigned raw value whose 0 is
    the empty guid; the default constructed guid is the empty one (a
    ticket is created in an empty state), and a guid used as a condition,
    as in [if (ticket.GetPlayerGuid())], is true when it is not empty. *)
Record ObjectGuid : Set := MkGuid { GetRawValue : N }.

#[global] Instance ObjectGuid_eq_dec : EqDecision ObjectGuid.
Proof. solve_decision. Defined.

#[global] Instance ObjectGuid_countable : Countable ObjectGuid :=
  inj_countable' GetRawValue MkGuid (λ g, match g with MkGuid _ => eq_refl end).

(** [ObjectGuid()] *)
Definition ObjectGuid_empty : ObjectGuid := MkGuid 0.

Definition IsEmpty (g : ObjectGuid) : bool := GetRawValue g =? 0.

(** The guid in a boolean context. *)
Definition guid_to_bool (g : ObjectGuid) : bool := negb (IsEmpty g).

(** ** GMTicket *)

Record GMTicket : Set := MkTicket {
  m_guid : ObjectGuid;
  m_text : string;
  m_responseText : string;
  m_lastUpdate : Z            (* time_t *)
}.

(** [explicit GMTicket() : m_lastUpdate(0) {}]: the other members are
    default constructed. *)
Definition GMTicket_new : GMTicket :=
  {| m_guid := ObjectGuid_empty; m_text := EmptyString;
     m_responseText := EmptyString; m_lastUpdate := 0%Z |}.

#[global] Instance GMTicket_inhabited : Inhabited GMTicket := populate GMTicket_new.

(** Modelled from the spec: the body of [GMTicket::Init] (declared in the
    header, defined in GMTicketMgr.cpp, which is not among the sources).
    The header documents the four parameters and that it "initializes this
    GMTicket, much like the constructor would"; the spec says that it is
    "a full reset of all four fields". *)
Definition Init (guid : ObjectGuid) (text responsetext : string) (update : Z)
    (this : GMTicket) : GMTicket :=
  {| m_guid := guid; m_text := text;
     m_responseText := responsetext; m_lastUpdate := update |}.

Definition GetPlayerGuid (this : GMTicket) : ObjectGuid := m_guid this.
Definition GetText (this : GMTicket) : string := m_text this.
Definition GetResponse (this : GMTicket) : string := m_responseText this.

(** [uint64 GetLastUpdate() const { return m_lastUpdate; }]: the signed
    [time_t] is converted to [uint64]. *)
Definition GetLastUpdate (this : GMTicket) : Z := (m_lastUpdate this mod 2 ^ 64)%Z.

(** [std::string::empty()]: the string has no characters. *)
Definition string_empty (s : string) : bool := Nat.eqb (String.length s) 0.

(** [bool HasResponse() { return !m_responseText.empty(); }] *)
Definition HasResponse (this : GMTicket) : bool := negb (string_empty (m_responseText this)).

(** ** Pointers to tickets and the two containers *)

(** A [GMTicket*]: null, or the address of the ticket stored in the map
    node of a key. *)
Inductive GMTicketPtr : Set :=
  | NULL
  | TicketAt (key : ObjectGuid).

#[global] Instance GMTicketPtr_eq_dec : EqDecision GMTicketPtr.
Proof. solve_decision. Defined.

#[global] Instance TicketAt_inj : Inj (=) (=) TicketAt.
Proof. by intros ?? [= ->]. Qed.

Abbreviation GMTicketMap := (gmap ObjectGuid GMTicket).
Abbreviation GMTicketList := (list GMTicketPtr).

(** [*p]: none for the null pointer and for the address of a node that is
    no longer in the map. *)
Definition deref (p : GMTicketPtr) (m : GMTicketMap) : option GMTicket :=
  match p with
  | NULL => None
  | TicketAt k => m !! k
  end.

(** [m[guid]] of [std::map]: a default constructed ticket is inserted when
    the key is absent. *)
Definition subscript (guid : ObjectGuid) (m : GMTicketMap) : GMTicketMap :=
  match m !! guid with
  | Some _ => m
  | None => <[guid := GMTicket_new]> m
  end.

(** [std::list::remove(value)]: every element equal to [value] goes, the
    others keep their order. *)
Definition list_remove_all (value : GMTicketPtr) (l : GMTicketList) : GMTicketList :=
  filter (λ p, p ≠ value) l.

(** A list iterator is the part of the list from its position on; [end()]
    is the empty rest.  [std::advance(itr, n)] steps [n] times, and
    stepping from [end()] has no defined result. *)
Fixpoint advance (itr : GMTicketList) (n : nat) : option GMTicketList :=
  match n, itr with
  | O, _ => Some itr
  | S n', _ :: rest => advance rest n'
  | S _, [] => None
  end.

(** What a call gives back: a value, or no defined behaviour. *)
Inductive Outcome (A : Type) : Type :=
  | Returns (a : A)
  | Undefined.
Arguments Returns {A} a.
Arguments Undefined {A}.

(** ** GMTicketMgr *)

Record GMTicketMgr : Type := MkMgr {
  m_TicketSystemOn : bool;
  m_GMTicketMap : GMTicketMap;
  m_GMTicketListByCreatingOrder : GMTicketList
}.

(** [GMTicketMgr() : m_TicketSystemOn(true) {}] *)
Definition GMTicketMgr_new : GMTicketMgr :=
  {| m_TicketSystemOn := true; m_GMTicketMap := ∅;
     m_GMTicketListByCreatingOrder := [] |}.

(** The calls [DeleteFromDB] and [SaveToDB] are [const] members of the
    ticket: they leave the ticket and the manager as they are and talk to
    the characters database.  Their bodies are not among the sources; the
    model records each call with the ticket it was made on. *)
Inductive DbCall : Set :=
  | DeleteFromDB (this : GMTicket)
  | SaveToDB (this : GMTicket).

(** The singleton manager and the calls made to the database so far. *)
Record World : Type := MkWorld {
  sTicketMgr : GMTicketMgr;
  CharacterDatabase : list DbCall
}.

Definition World_new : World :=
  {| sTicketMgr := GMTicketMgr_new; CharacterDatabase := [] |}.

(** [[
    GMTicketMap::iterator itr = m_GMTicketMap.find(guid);
    if (itr == m_GMTicketMap.end()) { return NULL; }
    return &(itr->second);
    ]] *)
Definition GetGMTicket (guid : ObjectGuid) (this : GMTicketMgr) : GMTicketPtr :=
  match m_GMTicketMap this !! guid with
  | None => NULL
  | Some _ => TicketAt guid
  end.

(** [size_t GetTicketCount() const { return m_GMTicketMap.size(); }] *)
Definition GetTicketCount (this : GMTicketMgr) : N :=
  N.of_nat (size (m_GMTicketMap this)).

(** [[
    if (pos >= GetTicketCount()) { return NULL; }
    GMTicketList::iterator itr = m_GMTicketListByCreatingOrder.begin();
    std::advance(itr, pos);
    if (itr == m_GMTicketListByCreatingOrder.end()) { return NULL; }
    return *itr;
    ]]
    [pos] is a [uint32]; it is compared with the count as it is. *)
Definition GetGMTicketByOrderPos (pos : N) (this : GMTicketMgr) : Outcome GMTicketPtr :=
  if GetTicketCount this <=? pos then Returns NULL
  else
    match advance (m_GMTicketListByCreatingOrder this) (N.to_nat pos) with
    | None => Undefined
    | Some [] => Returns NULL
    | Some (p :: _) => Returns p
    end.

(** [[
    GMTicketMap::iterator itr = m_GMTicketMap.find(guid);
    if (itr == m_GMTicketMap.end()) { return; }
    itr->second.DeleteFromDB();
    m_GMTicketListByCreatingOrder.remove(&itr->second);
    m_GMTicketMap.erase(itr);
    ]] *)
Definition Delete (guid : ObjectGuid) (w : World) : World :=
  let this := sTicketMgr w in
  match m_GMTicketMap this !! guid with
  | None => w
  | Some second =>
      {| sTicketMgr :=
           {| m_TicketSystemOn := m_TicketSystemOn this;
              m_GMTicketMap := delete guid (m_GMTicketMap this);
              m_GMTicketListByCreatingOrder :=
                list_remove_all (TicketAt guid) (m_GMTicketListByCreatingOrder this) |};
         CharacterDatabase := CharacterDatabase w ++ [DeleteFromDB second] |}
  end.

(** [[
    GMTicket& ticket = m_GMTicketMap[guid];
    if (ticket.GetPlayerGuid())                     // overwrite ticket
    {
        ticket.DeleteFromDB();
        m_GMTicketListByCreatingOrder.remove(&ticket);
    }
    ticket.Init(guid, text, <empty string>, time(NULL));
    ticket.SaveToDB();
    m_GMTicketListByCreatingOrder.push_back(&ticket);
    ]]
    [now] is the value of [time(NULL)] at the call; [old] is the ticket
    the reference [ticket] is bound to, before [Init] writes through it. *)
Definition Create (guid : ObjectGuid) (text : string) (now : Z) (w : World) : World :=
  let this := sTicketMgr w in
  let map1 := subscript guid (m_GMTicketMap this) in
  let ticket := TicketAt guid in
  let old := map1 !!! guid in
  let '(db1, list1) :=
    if guid_to_bool (GetPlayerGuid old)
    then (CharacterDatabase w ++ [DeleteFromDB old],
          list_remove_all ticket (m_GMTicketListByCreatingOrder this))
    else (CharacterDatabase w, m_GMTicketListByCreatingOrder this) in
  let new := Init guid text EmptyString now old in
  {| sTicketMgr :=
       {| m_TicketSystemOn := m_TicketSystemOn this;
          m_GMTicketMap := <[guid := new]> map1;
          m_GMTicketListByCreatingOrder := list1 ++ [ticket] |};
     CharacterDatabase := db1 ++ [SaveToDB new] |}.

(** [void SetAcceptTickets(bool accept) { m_TicketSystemOn = accept; }] *)
Definition SetAcceptTickets (accept : bool) (this : GMTicketMgr) : GMTicketMgr :=
  {| m_TicketSystemOn := accept;
     m_GMTicketMap := m_GMTicketMap this;
     m_GMTicketListByCreatingOrder := m_GMTicketListByCreatingOrder this |}.

(** [bool WillAcceptTickets() { return m_TicketSystemOn; }] *)
Definition WillAcceptTickets (this : GMTicketMgr) : bool := m_TicketSystemOn this.

(** ** Sequences of calls *)

Inductive Call : Set :=
  | CallCreate (guid : ObjectGuid) (text : string) (now : Z)
  | CallDelete (guid : ObjectGuid).

Definition step (w : World) (c : Call) : World :=
  match c with
  | CallCreate guid text now => Create guid text now w
  | CallDelete guid => Delete guid w
  end.

Definition run (calls : list Call) (w : World) : World := foldl step w calls.

(** The callers' contract for [Create]: the owner is a player. *)
Definition owner_given (c : Call) : Prop :=
  match c with
  | CallCreate guid _ _ => guid ≠ ObjectGuid_empty
  | CallDelete _ => True
  end.

(** ** What the lookups resolve to *)

(** The ticket a position of the creation order resolves to. *)
Definition ticket_at_pos (pos : N) (this : GMTicketMgr) : option GMTicket :=
  match GetGMTicketByOrderPos pos this with
  | Returns p => deref p (m_GMTicketMap this)
  | Undefined => None
  end.

(** The ticket the lookup by owner resolves to. *)
Definition ticket_of (guid : ObjectGuid) (this : GMTicketMgr) : option GMTicket :=
  deref (GetGMTicket guid this) (m_GMTicketMap this).

(** ** Invariants of the registry *)

(** Every pointer of the list is the address of a live node and every
    node has its address in the list. *)
Definition order_matches_owner (this : GMTicketMgr) : Prop :=
  ∀ p, p ∈ m_GMTicketListByCreatingOrder this ↔
       ∃ k, p = TicketAt k ∧ is_Some (m_GMTicketMap this !! k).

(** A stored ticket carries the key of its node. *)
Definition guid_is_key (this : GMTicketMgr) : Prop :=
  ∀ k t, m_GMTicketMap this !! k = Some t → GetPlayerGuid t = k.

(** What holds after any calls whatever. *)
Definition linked (this : GMTicketMgr) : Prop :=
  order_matches_owner this ∧ guid_is_key this.

(** The invariants of the data model: on top of [linked], no address is
    twice in the list and no ticket is kept under the empty guid. *)
Record registry_inv (this : GMTicketMgr) : Prop := {
  inv_linked : linked this;
  inv_nodup : NoDup (m_GMTicketListByCreatingOrder this);
  inv_owner : m_GMTicketMap this !! ObjectGuid_empty = None
}.

(** The addresses of the nodes of a map, in the order of its keys. *)
Definition keys_of (m : GMTicketMap) : list GMTicketPtr :=
  TicketAt <$> (map_to_list m).*1.

(** ** Properties of the spec as predicates *)

(** C1 as it is stated, for the state [w]: for a non-empty owner without
    a ticket, [Create] raises the count by one, the lookup by owner
    resolves to a ticket with the text, the empty response and the time of
    the call, and the position [count - 1] resolves to a ticket of that
    owner. *)
Definition create_appends_as_stated (w : World) (guid : ObjectGuid) (text : string)
    (now : Z) : Prop :=
  guid ≠ ObjectGuid_empty →
  m_GMTicketMap (sTicketMgr w) !! guid = None →
  let this := sTicketMgr w in
  let this' := sTicketMgr (Create guid text now w) in
  GetTicketCount this' = GetTicketCount this + 1
  ∧ (∃ t, ticket_of guid this' = Some t
          ∧ GetText t = text ∧ GetResponse t = EmptyString ∧ m_lastUpdate t = now)
  ∧ (∃ t, ticket_at_pos (GetTicketCount this' - 1) this' = Some t
          ∧ GetPlayerGuid t = guid).

(** The pointer [p] is at another place in [after] than in [before]. *)
Definition position_changed (p : GMTicketPtr) (before after : GMTicketList) : Prop :=
  ∀ i : nat, before !! i = Some p → after !! i ≠ Some p.

(** C2 as it is stated, for a new registry: one ticket, the second text,
    the pointer at the tail and not at the place it had. *)
Definition created_twice_as_stated (A : ObjectGuid) (t1 t2 : string) (n1 n2 : Z) : Prop :=
  let w1 := Create A t1 n1 World_new in
  let w2 := Create A t2 n2 w1 in
  GetTicketCount (sTicketMgr w2) = 1
  ∧ (∃ t, ticket_of A (sTicketMgr w2) = Some t ∧ GetText t = t2)
  ∧ last (m_GMTicketListByCreatingOrder (sTicketMgr w2)) = Some (TicketAt A)
  ∧ position_changed (TicketAt A)
      (m_GMTicketListByCreatingOrder (sTicketMgr w1))
      (m_GMTicketListByCreatingOrder (sTicketMgr w2)).

(** C3 as it is stated: the count is the length of the creation order and
    the size of the map, and every position below the count resolves to a
    ticket whose owner is a key of the map. *)
Definition index_consistent (this : GMTicketMgr) : Prop :=
  GetTicketCount this = N.of_nat (length (m_GMTicketListByCreatingOrder this))
  ∧ GetTicketCount this = N.of_nat (size (m_GMTicketMap this))
  ∧ ∀ pos, pos < GetTicketCount this →
      ∃ t, ticket_at_pos pos this = Some t
           ∧ is_Some (m_GMTicketMap this !! GetPlayerGuid t).

(** ** The database calls about one ticket *)

(** The guid of the ticket a database call was made on. *)
Definition DbCall_guid (c : DbCall) : ObjectGuid :=
  match c with
  | DeleteFromDB this => GetPlayerGuid this
  | SaveToDB this => GetPlayerGuid this
  end.

(** The last database call made on a ticket of [guid], if any. *)
Definition last_db_call (guid : ObjectGuid) (db : list DbCall) : option DbCall :=
  last (filter (λ c, DbCall_guid c = guid) db).

(** The database has followed the registry for [guid]: a ticket kept for
    the owner was saved last, as it is kept; for an owner without a ticket
    the last call, if there is one, was the deletion. *)
Definition db_follows (w : World) (guid : ObjectGuid) : Prop :=
  match m_GMTicketMap (sTicketMgr w) !! guid with
  | Some t => last_db_call guid (CharacterDatabase w) = Some (SaveToDB t)
  | None => last_db_call guid (CharacterDatabase w) = None
            ∨ ∃ t, last_db_call guid (CharacterDatabase w) = Some (DeleteFromDB t)
  end.

(** ** Guids and strings *)

Lemma guid_to_bool_true g : guid_to_bool g = true ↔ g ≠ ObjectGuid_empty.
Proof.
  destruct g as [n]. unfold guid_to_bool, IsEmpty, ObjectGuid_empty. simpl.
  rewrite negb_true_iff, N.eqb_neq. split.
  - intros Hn [= ->]. by apply Hn.
  - intros Hg ->. by apply Hg.
Qed.

Lemma guid_to_bool_false g : guid_to_bool g = false ↔ g = ObjectGuid_empty.
Proof.
  rewrite <- not_true_iff_false, guid_to_bool_true.
  destruct (decide (g = ObjectGuid_empty)); naive_solver.
Qed.

Lemma string_empty_true s : string_empty s = true ↔ s = EmptyString.
Proof. destruct s; simpl; split; done. Qed.

(** ** The list operations *)

Lemma elem_of_list_remove_all value p l :
  p ∈ list_remove_all value l ↔ p ∈ l ∧ p ≠ value.
Proof. unfold list_remove_all. rewrite list_elem_of_filter. tauto. Qed.

Lemma list_remove_all_absent value l :
  value ∉ l → list_remove_all value l = l.
Proof.
  unfold list_remove_all. induction l as [|x l IH]; [done|].
  rewrite not_elem_of_cons. intros [Hx Hl].
  rewrite filter_cons_True by done. by rewrite IH.
Qed.

Lemma list_remove_all_app value l1 l2 :
  list_remove_all value (l1 ++ l2) = list_remove_all value l1 ++ list_remove_all value l2.
Proof. apply filter_app. Qed.

(** Where the list has the value once, [remove] takes it out in place. *)
Lemma list_remove_all_once value l1 l2 :
  value ∉ l1 → value ∉ l2 →
  list_remove_all value (l1 ++ value :: l2) = l1 ++ l2.
Proof.
  intros H1 H2. rewrite list_remove_all_app.
  rewrite (list_remove_all_absent _ l1) by done. f_equal.
  unfold list_remove_all. rewrite filter_cons_False by naive_solver.
  by apply list_remove_all_absent.
Qed.

Lemma NoDup_list_remove_all value l : NoDup l → NoDup (list_remove_all value l).
Proof. apply NoDup_filter. Qed.

Lemma advance_within l n : (n ≤ length l)%nat → advance l n = Some (drop n l).
Proof.
  revert l. induction n as [|n IH]; intros [|x l] Hn; simpl in *; try done; try lia.
  apply IH. lia.
Qed.

Lemma advance_beyond l n : (length l < n)%nat → advance l n = None.
Proof.
  revert l. induction n as [|n IH]; intros [|x l] Hn; simpl in *; try done; try lia.
  apply IH. lia.
Qed.

(** ** The manager after [Create] and [Delete] *)

Section after_call.
Variable w : World.
Let this := sTicketMgr w.

Lemma Create_flag guid text now :
  m_TicketSystemOn (sTicketMgr (Create guid text now w)) = m_TicketSystemOn this.
Proof. unfold Create. by destruct (guid_to_bool _). Qed.

Lemma Create_map guid text now :
  m_GMTicketMap (sTicketMgr (Create guid text now w))
  = <[guid := MkTicket guid text EmptyString now]> (m_GMTicketMap this).
Proof.
  unfold Create. destruct (guid_to_bool _); simpl; fold this;
    unfold subscript, Init; destruct (m_GMTicketMap this !! guid); try done;
    by rewrite insert_insert_eq.
Qed.

Lemma Create_list_fresh guid text now :
  m_GMTicketMap this !! guid = None →
  m_GMTicketListByCreatingOrder (sTicketMgr (Create guid text now w))
  = m_GMTicketListByCreatingOrder this ++ [TicketAt guid].
Proof.
  intros Hnone. unfold Create, subscript. fold this. rewrite Hnone.
  by rewrite lookup_total_insert_eq.
Qed.

Lemma Create_list_replace guid text now old :
  m_GMTicketMap this !! guid = Some old →
  GetPlayerGuid old ≠ ObjectGuid_empty →
  m_GMTicketListByCreatingOrder (sTicketMgr (Create guid text now w))
  = list_remove_all (TicketAt guid) (m_GMTicketListByCreatingOrder this) ++ [TicketAt guid].
Proof.
  intros Hold Hguid. unfold Create, subscript. fold this. rewrite Hold.
  rewrite (lookup_total_correct _ _ _ Hold).
  apply guid_to_bool_true in Hguid. by rewrite Hguid.
Qed.

Lemma Create_list_keep guid text now old :
  m_GMTicketMap this !! guid = Some old →
  GetPlayerGuid old = ObjectGuid_empty →
  m_GMTicketListByCreatingOrder (sTicketMgr (Create guid text now w))
  = m_GMTicketListByCreatingOrder this ++ [TicketAt guid].
Proof.
  intros Hold Hguid. unfold Create, subscript. fold this. rewrite Hold.
  rewrite (lookup_total_correct _ _ _ Hold).
  apply guid_to_bool_false in Hguid. by rewrite Hguid.
Qed.

Lemma Delete_absent guid :
  m_GMTicketMap this !! guid = None → Delete guid w = w.
Proof. intros Hnone. unfold Delete. fold this. by rewrite Hnone. Qed.

Lemma Delete_flag guid :
  m_TicketSystemOn (sTicketMgr (Delete guid w)) = m_TicketSystemOn this.
Proof. unfold Delete. fold this. by destruct (m_GMTicketMap this !! guid). Qed.

Lemma Delete_map guid :
  m_GMTicketMap (sTicketMgr (Delete guid w)) = delete guid (m_GMTicketMap this).
Proof.
  unfold Delete. fold this.
  destruct (m_GMTicketMap this !! guid) eqn:Hg; [done|].
  symmetry. by apply delete_id.
Qed.

Lemma Delete_list guid :
  is_Some (m_GMTicketMap this !! guid) →
  m_GMTicketListByCreatingOrder (sTicketMgr (Delete guid w))
  = list_remove_all (TicketAt guid) (m_GMTicketListByCreatingOrder this).
Proof. intros [t Ht]. unfold Delete. fold this. by rewrite Ht. Qed.
End after_call.

(** ** The calls made to the database *)

Lemma Create_db_fresh w guid text now :
  m_GMTicketMap (sTicketMgr w) !! guid = None →
  CharacterDatabase (Create guid text now w)
  = CharacterDatabase w ++ [SaveToDB (MkTicket guid text EmptyString now)].
Proof.
  intros Hnone. unfold Create, subscript. rewrite Hnone.
  by rewrite lookup_total_insert_eq.
Qed.

Lemma Create_db_replace w guid text now old :
  m_GMTicketMap (sTicketMgr w) !! guid = Some old →
  GetPlayerGuid old ≠ ObjectGuid_empty →
  CharacterDatabase (Create guid text now w)
  = CharacterDatabase w
    ++ [DeleteFromDB old; SaveToDB (MkTicket guid text EmptyString now)].
Proof.
  intros Hold Hguid. unfold Create, subscript. rewrite Hold.
  rewrite (lookup_total_correct _ _ _ Hold).
  apply guid_to_bool_true in Hguid. rewrite Hguid. simpl.
  by rewrite <- (assoc_L (++)).
Qed.

Lemma Delete_db w guid old :
  m_GMTicketMap (sTicketMgr w) !! guid = Some old →
  CharacterDatabase (Delete guid w) = CharacterDatabase w ++ [DeleteFromDB old].
Proof. intros Hold. unfold Delete. by rewrite Hold. Qed.

(** ** The invariants hold at the start and are kept by the calls *)

Lemma elem_of_Create_list w guid text now p :
  p ∈ m_GMTicketListByCreatingOrder (sTicketMgr (Create guid text now w))
  ↔ p ∈ m_GMTicketListByCreatingOrder (sTicketMgr w) ∨ p = TicketAt guid.
Proof.
  unfold Create. destruct (guid_to_bool _); simpl;
    rewrite elem_of_app, list_elem_of_singleton; [|done].
  rewrite elem_of_list_remove_all.
  destruct (decide (p = TicketAt guid)); tauto.
Qed.

Lemma linked_new : linked GMTicketMgr_new.
Proof.
  split.
  - intros p. simpl. split.
    + by intros ?%elem_of_nil.
    + intros (k & _ & Hk). rewrite lookup_empty in Hk. by destruct Hk.
  - intros k t. simpl. by rewrite lookup_empty.
Qed.

Lemma registry_inv_new : registry_inv GMTicketMgr_new.
Proof. split; [apply linked_new | constructor | apply lookup_empty]. Qed.

Lemma Create_linked w guid text now :
  linked (sTicketMgr w) → linked (sTicketMgr (Create guid text now w)).
Proof.
  intros [Horder Hkey]. split.
  - intros p. rewrite elem_of_Create_list, Create_map, (Horder p). split.
    + intros [(k & -> & Hk) | ->].
      * exists k. split; [done|]. rewrite lookup_insert_is_Some.
        destruct (decide (guid = k)); auto.
      * exists guid. split; [done|]. rewrite lookup_insert_eq. eauto.
    + intros (k & -> & Hk). apply lookup_insert_is_Some in Hk as [-> | [_ Hk]]; eauto.
  - intros k t. rewrite Create_map.
    intros [[<- <-] | [_ Hk]]%lookup_insert_Some; [done | by apply Hkey].
Qed.

Lemma Delete_linked w guid :
  linked (sTicketMgr w) → linked (sTicketMgr (Delete guid w)).
Proof.
  intros Hl. destruct (m_GMTicketMap (sTicketMgr w) !! guid) as [old|] eqn:Hg;
    [|by rewrite Delete_absent].
  destruct Hl as [Horder Hkey]. split.
  - intros p. rewrite Delete_list, Delete_map by eauto.
    rewrite elem_of_list_remove_all, (Horder p). split.
    + intros [(k & -> & Hk) Hne]. exists k. split; [done|].
      rewrite lookup_delete_is_Some. split; [congruence | done].
    + intros (k & -> & [Hne Hk]%lookup_delete_is_Some). split; [eauto | congruence].
  - intros k t. rewrite Delete_map. intros [_ Hk]%lookup_delete_Some. by apply Hkey.
Qed.

Lemma Create_registry_inv w guid text now :
  guid ≠ ObjectGuid_empty →
  registry_inv (sTicketMgr w) → registry_inv (sTicketMgr (Create guid text now w)).
Proof.
  intros Hguid [Hl Hnd Hown]. split.
  - by apply Create_linked.
  - destruct Hl as [Horder Hkey].
    destruct (m_GMTicketMap (sTicketMgr w) !! guid) as [old|] eqn:Hg.
    + rewrite (Create_list_replace _ _ _ _ old) by (rewrite ?(Hkey _ _ Hg); done).
      apply NoDup_app. split_and!.
      * by apply NoDup_list_remove_all.
      * intros p [_ Hp]%elem_of_list_remove_all ->%list_elem_of_singleton. done.
      * apply NoDup_singleton.
    + rewrite Create_list_fresh by done.
      apply NoDup_app. split_and!; [done | | apply NoDup_singleton].
      intros p Hp ->%list_elem_of_singleton.
      apply Horder in Hp as (k & [= <-] & Hk). rewrite Hg in Hk. by destruct Hk.
  - rewrite Create_map. by rewrite lookup_insert_ne.
Qed.

Lemma Delete_registry_inv w guid :
  registry_inv (sTicketMgr w) → registry_inv (sTicketMgr (Delete guid w)).
Proof.
  intros [Hl Hnd Hown]. split.
  - by apply Delete_linked.
  - destruct (m_GMTicketMap (sTicketMgr w) !! guid) as [old|] eqn:Hg;
      [|by rewrite Delete_absent].
    rewrite Delete_list by eauto. by apply NoDup_list_remove_all.
  - rewrite Delete_map. apply lookup_delete_None. by right.
Qed.

Lemma run_snoc calls c w : run (calls ++ [c]) w = step (run calls w) c.
Proof. unfold run. by rewrite foldl_snoc. Qed.

(** Whatever the calls, the two containers stay linked. *)
Lemma run_linked calls : linked (sTicketMgr (run calls World_new)).
Proof.
  induction calls as [|c calls IH] using rev_ind; [apply linked_new|].
  rewrite run_snoc. destruct c; simpl; [by apply Create_linked | by apply Delete_linked].
Qed.

(** Calls that keep the contract of [Create] keep the invariants. *)
Lemma run_registry_inv calls :
  Forall owner_given calls → registry_inv (sTicketMgr (run calls World_new)).
Proof.
  induction calls as [|c calls IH] using rev_ind; intros Hcalls; [apply registry_inv_new|].
  rewrite Forall_app, Forall_singleton in Hcalls. destruct Hcalls as [Hcalls Hc].
  rewrite run_snoc. destruct c; simpl in *.
  - apply Create_registry_inv; [exact Hc | by apply IH].
  - apply Delete_registry_inv. by apply IH.
Qed.

(** ** Sizes of the two containers *)

Lemma NoDup_keys_of m : NoDup (keys_of m).
Proof. apply (NoDup_fmap_2 _), NoDup_fst_map_to_list. Qed.

Lemma elem_of_keys_of m p :
  p ∈ keys_of m ↔ ∃ k, p = TicketAt k ∧ is_Some (m !! k).
Proof.
  unfold keys_of. rewrite list_elem_of_fmap.
  split; intros (k & -> & Hk); exists k; (split; [done|]).
  - apply list_elem_of_fmap in Hk as ([k' t] & -> & Ht%elem_of_map_to_list). eauto.
  - destruct Hk as [t Ht]. apply list_elem_of_fmap. exists (k, t).
    split; [done | by apply elem_of_map_to_list].
Qed.

Lemma length_keys_of m : length (keys_of m) = size m.
Proof. unfold keys_of. by rewrite !length_fmap, length_map_to_list. Qed.

Lemma linked_size_le this :
  order_matches_owner this →
  (size (m_GMTicketMap this) ≤ length (m_GMTicketListByCreatingOrder this))%nat.
Proof.
  intros Horder. rewrite <- length_keys_of. apply submseteq_length, NoDup_submseteq.
  - apply NoDup_keys_of.
  - intros p Hp. by apply Horder, elem_of_keys_of.
Qed.

Lemma registry_inv_size this :
  registry_inv this →
  length (m_GMTicketListByCreatingOrder this) = size (m_GMTicketMap this).
Proof.
  intros [[Horder _] Hnd _]. rewrite <- length_keys_of. apply Permutation_length.
  apply NoDup_Permutation; [done | apply NoDup_keys_of |].
  intros p. by rewrite elem_of_keys_of.
Qed.

(** ** Lookup by position *)

Lemma GetGMTicketByOrderPos_beyond this pos :
  GetTicketCount this ≤ pos → GetGMTicketByOrderPos pos this = Returns NULL.
Proof.
  intros Hpos. unfold GetGMTicketByOrderPos.
  by rewrite (proj2 (N.leb_le _ _) Hpos).
Qed.

Lemma GetGMTicketByOrderPos_within this pos p :
  pos < GetTicketCount this →
  m_GMTicketListByCreatingOrder this !! N.to_nat pos = Some p →
  GetGMTicketByOrderPos pos this = Returns p.
Proof.
  intros Hpos Hp. unfold GetGMTicketByOrderPos.
  rewrite (proj2 (N.leb_gt _ _) Hpos).
  rewrite advance_within by (apply lookup_lt_Some in Hp; lia).
  by rewrite (drop_S _ _ _ Hp).
Qed.

(** A record whose list is shorter than its map is no state of the
    registry (see [run_linked] and [linked_size_le]); there the lookup
    would step past the end of the list. *)
Example GetGMTicketByOrderPos_unlinked :
  GetGMTicketByOrderPos 1
    (MkMgr true (<[MkGuid 1 := GMTicket_new]> (<[MkGuid 2 := GMTicket_new]> ∅)) [])
  = Undefined.
Proof. reflexivity. Qed.

(** With the containers linked, a position below the count is a position
    of the list, and the pointer there is the address of a node. *)
Lemma GetGMTicketByOrderPos_linked this pos :
  order_matches_owner this →
  pos < GetTicketCount this →
  ∃ k, m_GMTicketListByCreatingOrder this !! N.to_nat pos = Some (TicketAt k)
       ∧ is_Some (m_GMTicketMap this !! k)
       ∧ GetGMTicketByOrderPos pos this = Returns (TicketAt k).
Proof.
  intros Horder Hpos.
  pose proof (linked_size_le this Horder) as Hle.
  destruct (lookup_lt_is_Some_2 (m_GMTicketListByCreatingOrder this) (N.to_nat pos))
    as [p Hp]; [unfold GetTicketCount in Hpos; lia|].
  assert (p ∈ m_GMTicketListByCreatingOrder this) as Hin
    by (apply list_elem_of_lookup; eauto).
  apply Horder in Hin as (k & -> & Hk).
  exists k. split_and!; [done | done | by apply GetGMTicketByOrderPos_within].
Qed.

Lemma GetTicketCount_Create_fresh w guid text now :
  m_GMTicketMap (sTicketMgr w) !! guid = None →
  GetTicketCount (sTicketMgr (Create guid text now w)) = GetTicketCount (sTicketMgr w) + 1.
Proof.
  intros Hnone. unfold GetTicketCount. rewrite Create_map.
  rewrite map_size_insert_None by done. lia.
Qed.

Lemma GetTicketCount_Create_present w guid text now :
  is_Some (m_GMTicketMap (sTicketMgr w) !! guid) →
  GetTicketCount (sTicketMgr (Create guid text now w)) = GetTicketCount (sTicketMgr w).
Proof.
  intros Hsome. unfold GetTicketCount. rewrite Create_map.
  by rewrite map_size_insert_Some.
Qed.

Lemma ticket_of_Create w guid text now :
  ticket_of guid (sTicketMgr (Create guid text now w))
  = Some (MkTicket guid text EmptyString now).
Proof.
  unfold ticket_of, GetGMTicket. rewrite Create_map, lookup_insert_eq. simpl.
  by rewrite lookup_insert_eq.
Qed.

Lemma deref_TicketAt k (m : GMTicketMap) : deref (TicketAt k) m = m !! k.
Proof. reflexivity. Qed.

(** A ticket reached through a pointer is the ticket kept under its own
    guid. *)
Lemma deref_guid_is_key this p t :
  guid_is_key this →
  deref p (m_GMTicketMap this) = Some t →
  p = TicketAt (GetPlayerGuid t) ∧ m_GMTicketMap this !! GetPlayerGuid t = Some t.
Proof.
  intros Hkey Hp. destruct p as [|k]; [done|]. simpl in Hp.
  by rewrite (Hkey _ _ Hp).
Qed.

Lemma map_size_pos (m : GMTicketMap) k : is_Some (m !! k) → (0 < size m)%nat.
Proof.
  intros [t Ht]. destruct (size m) eqn:Hsize; [|lia].
  apply map_size_empty_inv in Hsize. subst m. by rewrite lookup_empty in Ht.
Qed.

(** Re-creating the ticket of an owner takes its pointer out of the place
    it had in the creation order and appends it. *)
Lemma Create_moves_to_tail w guid text now l1 l2 :
  registry_inv (sTicketMgr w) →
  m_GMTicketListByCreatingOrder (sTicketMgr w) = l1 ++ TicketAt guid :: l2 →
  m_GMTicketListByCreatingOrder (sTicketMgr (Create guid text now w))
  = l1 ++ l2 ++ [TicketAt guid].
Proof.
  intros [[Horder Hkey] Hnd Hown] Hlist.
  assert (is_Some (m_GMTicketMap (sTicketMgr w) !! guid)) as [old Hold].
  { destruct (proj1 (Horder (TicketAt guid))) as (k & [= <-] & Hk); [|done].
    rewrite Hlist. set_solver. }
  rewrite (Create_list_replace _ _ _ _ old Hold).
  - rewrite Hlist in Hnd |- *.
    apply NoDup_app in Hnd as (_ & Hl1 & [Hl2 _]%NoDup_cons).
    rewrite list_remove_all_once, (assoc_L (++)); [done | | done].
    intros Hin. apply (Hl1 _ Hin). set_solver.
  - rewrite (Hkey _ _ Hold). intros ->. by rewrite Hown in Hold.
Qed.

(** ** The claims *)

(** C1, the part that fails: after two calls of [Create] with the empty
    guid the list has two pointers for one entry of the map; owner 42 has
    no ticket there, and after [Create] for 42 the count is 2 and the
    position [count - 1] resolves to the ticket kept under the empty guid,
    not to the new one. *)
Lemma Create_appends_needs_equal_sizes :
  ¬ create_appends_as_stated
      (Create ObjectGuid_empty "b" 2 (Create ObjectGuid_empty "a" 1 World_new))
      (MkGuid 42) "help stuck" 1000.
Proof.
  intros Hstated.
  assert (MkGuid 42 ≠ ObjectGuid_empty) as H42 by done.
  destruct (Hstated H42 eq_refl) as (_ & _ & t & Hat & Howner).
  vm_compute in Hat. injection Hat as <-. discriminate Howner.
Qed.

(** C1, amended.  In a registry state where the creation order has as
    many pointers as the map has tickets, and where the owner has no
    ticket, [Create] at time [now] raises the count by one; the lookup by
    owner then resolves to a ticket with the given text, the empty
    response and [now] as last update; the pointer of the new ticket is
    appended to the creation order, and the position [count - 1] resolves
    to the ticket of that owner.  The owner need not be assumed non-empty
    for this. *)
Theorem Create_appends_new_ticket (w : World) (guid : ObjectGuid) (text : string) (now : Z) :
  length (m_GMTicketListByCreatingOrder (sTicketMgr w)) = size (m_GMTicketMap (sTicketMgr w)) →
  m_GMTicketMap (sTicketMgr w) !! guid = None →
  let this := sTicketMgr w in
  let this' := sTicketMgr (Create guid text now w) in
  GetTicketCount this' = GetTicketCount this + 1
  ∧ GetGMTicket guid this' = TicketAt guid
  ∧ (∃ t, ticket_of guid this' = Some t
          ∧ GetPlayerGuid t = guid
          ∧ GetText t = text
          ∧ GetResponse t = EmptyString
          ∧ m_lastUpdate t = now
          ∧ GetLastUpdate t = (now mod 2 ^ 64)%Z)
  ∧ m_GMTicketListByCreatingOrder this'
    = m_GMTicketListByCreatingOrder this ++ [TicketAt guid]
  ∧ GetGMTicketByOrderPos (GetTicketCount this' - 1) this' = Returns (TicketAt guid)
  ∧ ticket_at_pos (GetTicketCount this' - 1) this' = ticket_of guid this'.
Proof.
  intros Hsize Hnone this this'.
  assert (GetTicketCount this' = GetTicketCount this + 1) as Hcount
    by by apply GetTicketCount_Create_fresh.
  assert (m_GMTicketListByCreatingOrder this'
          = m_GMTicketListByCreatingOrder this ++ [TicketAt guid]) as Hlist
    by by apply Create_list_fresh.
  assert (GetGMTicketByOrderPos (GetTicketCount this' - 1) this' = Returns (TicketAt guid))
    as Hpos.
  { apply GetGMTicketByOrderPos_within; [lia|].
    rewrite Hlist, Hcount. unfold GetTicketCount.
    unfold this. rewrite <- Hsize. fold this.
    replace (N.to_nat (N.of_nat (length (m_GMTicketListByCreatingOrder this)) + 1 - 1))
      with (length (m_GMTicketListByCreatingOrder this)) by lia.
    apply list_lookup_middle. done. }
  split_and!; try done.
  - unfold GetGMTicket, this'. by rewrite Create_map, lookup_insert_eq.
  - exists (MkTicket guid text EmptyString now).
    split; [apply ticket_of_Create | done].
  - unfold ticket_at_pos. rewrite Hpos. unfold ticket_of, GetGMTicket, this'.
    by rewrite Create_map, lookup_insert_eq.
Qed.

(** With the tickets of owners 1 and 3 left by scenario S3 of the spec,
    owner 42 files "help stuck" at time 1000: the count is 3 and the
    ticket is at position 2. *)
Lemma Create_appends_new_ticket_witness :
  let w := run [CallCreate (MkGuid 1) "a" 1%Z; CallCreate (MkGuid 2) "b" 2%Z;
                CallCreate (MkGuid 3) "c" 3%Z; CallDelete (MkGuid 2)] World_new in
  let this' := sTicketMgr (Create (MkGuid 42) "help stuck" 1000 w) in
  length (m_GMTicketListByCreatingOrder (sTicketMgr w)) = size (m_GMTicketMap (sTicketMgr w))
  ∧ m_GMTicketMap (sTicketMgr w) !! MkGuid 42 = None
  ∧ GetTicketCount this' = 3
  ∧ ticket_of (MkGuid 42) this'
    = Some (MkTicket (MkGuid 42) "help stuck" EmptyString 1000)
  ∧ GetGMTicketByOrderPos 2 this' = Returns (TicketAt (MkGuid 42))
  ∧ ticket_at_pos 2 this' = ticket_of (MkGuid 42) this'.
Proof.
  intros w this'.
  destruct (Create_appends_new_ticket w (MkGuid 42) "help stuck" 1000 eq_refl eq_refl)
    as (Hcount & _ & _ & _ & Hpos & Hat).
  split_and!;
    [reflexivity | reflexivity | exact Hcount | reflexivity | exact Hpos | exact Hat].
Defined.

(** C2, the part that fails: in a registry that holds the ticket of owner
    42 alone, the tail of the creation order is position 0, the place the
    pointer had after the first [Create]. *)
Lemma created_twice_same_position :
  ¬ created_twice_as_stated (MkGuid 42) "help stuck" "still stuck" 1000 1010.
Proof.
  intros (_ & _ & _ & Hmoved). by apply (Hmoved 0%nat).
Qed.

(** C2, amended.  For a non-empty owner [A], after [Create A t1] and
    [Create A t2] in the new registry the count is 1, the lookup by owner
    resolves to a ticket with text [t2], and the creation order holds the
    pointer of [A] and nothing else: it is at the tail, which is the
    position 0 it had before.  In a registry state where other pointers
    stand after the one of [A], the second [Create] moves the pointer of
    [A] from its place to the tail and keeps the others in order. *)
Theorem Create_twice_replaces (A : ObjectGuid) (t1 t2 : string) (n1 n2 : Z) :
  A ≠ ObjectGuid_empty →
  let w1 := Create A t1 n1 World_new in
  let w2 := Create A t2 n2 w1 in
  (GetTicketCount (sTicketMgr w2) = 1
   ∧ ticket_of A (sTicketMgr w2) = Some (MkTicket A t2 EmptyString n2)
   ∧ m_GMTicketListByCreatingOrder (sTicketMgr w1) = [TicketAt A]
   ∧ m_GMTicketListByCreatingOrder (sTicketMgr w2) = [TicketAt A]
   ∧ GetGMTicketByOrderPos (GetTicketCount (sTicketMgr w2) - 1) (sTicketMgr w2)
     = Returns (TicketAt A))
  ∧ (∀ w text now l1 l2,
       registry_inv (sTicketMgr w) →
       m_GMTicketListByCreatingOrder (sTicketMgr w) = l1 ++ TicketAt A :: l2 →
       m_GMTicketListByCreatingOrder (sTicketMgr (Create A text now w))
       = l1 ++ l2 ++ [TicketAt A]).
Proof.
  intros HA w1 w2. split; [|intros; by eapply Create_moves_to_tail].
  assert (registry_inv (sTicketMgr w1)) as Hinv1
    by (apply Create_registry_inv; [done | apply registry_inv_new]).
  assert (m_GMTicketListByCreatingOrder (sTicketMgr w1) = [TicketAt A]) as Hl1
    by (unfold w1; by rewrite Create_list_fresh).
  assert (m_GMTicketListByCreatingOrder (sTicketMgr w2) = [TicketAt A]) as Hl2
    by (apply (Create_moves_to_tail w1 A t2 n2 [] []); done).
  assert (GetTicketCount (sTicketMgr w2) = 1) as Hcount.
  { unfold w2. rewrite GetTicketCount_Create_present.
    - unfold w1. by rewrite GetTicketCount_Create_fresh.
    - unfold w1. rewrite Create_map, lookup_insert_eq. eauto. }
  split_and!; [done | apply ticket_of_Create | done | done |].
  rewrite Hcount. apply GetGMTicketByOrderPos_within; [lia | by rewrite Hl2].
Qed.

(** Owner 42 replaces "help stuck" by "still stuck" (scenario S2), and
    with owner 7 created in between the pointer of 42 moves behind it. *)
Lemma Create_twice_replaces_witness :
  let w2 := Create (MkGuid 42) "still stuck" 1010
              (Create (MkGuid 42) "help stuck" 1000 World_new) in
  let w := run [CallCreate (MkGuid 42) "a" 1%Z; CallCreate (MkGuid 7) "b" 2%Z] World_new in
  MkGuid 42 ≠ ObjectGuid_empty
  ∧ GetTicketCount (sTicketMgr w2) = 1
  ∧ ticket_of (MkGuid 42) (sTicketMgr w2)
    = Some (MkTicket (MkGuid 42) "still stuck" EmptyString 1010)
  ∧ m_GMTicketListByCreatingOrder (sTicketMgr (Create (MkGuid 42) "c" 3 w))
    = [TicketAt (MkGuid 7); TicketAt (MkGuid 42)].
Proof.
  intros w2 w.
  assert (MkGuid 42 ≠ ObjectGuid_empty) as H42 by done.
  destruct (Create_twice_replaces (MkGuid 42) "help stuck" "still stuck" 1000 1010 H42)
    as [(Hcount & Hticket & _) Hmove].
  split_and!; [exact H42 | exact Hcount | exact Hticket |].
  apply (Hmove w "c"%string 3%Z [] [TicketAt (MkGuid 7)]); [|reflexivity].
  apply (run_registry_inv [CallCreate (MkGuid 42) "a" 1%Z; CallCreate (MkGuid 7) "b" 2%Z]).
  repeat constructor; done.
Defined.

(** C3, the part that fails: two calls of [Create] with the empty guid
    leave one entry in the map and two pointers in the creation order. *)
Lemma index_consistent_needs_owner :
  ¬ index_consistent
      (sTicketMgr (run [CallCreate ObjectGuid_empty "a" 1%Z;
                        CallCreate ObjectGuid_empty "b" 2%Z] World_new)).
Proof.
  intros [Hlen _]. vm_compute in Hlen. discriminate Hlen.
Qed.

(** C3, amended.  After any sequence of [Delete] calls and of [Create]
    calls whose owner is not the empty guid, from the new registry, the
    count is the length of the creation order and the size of the map,
    and every position below the count resolves to a ticket whose owner is
    a key of the map. *)
Theorem index_consistent_after_calls (calls : list Call) :
  Forall owner_given calls →
  index_consistent (sTicketMgr (run calls World_new)).
Proof.
  intros Hcalls. pose proof (run_registry_inv calls Hcalls) as Hinv.
  set (this := sTicketMgr (run calls World_new)) in *.
  split_and!.
  - unfold GetTicketCount. by rewrite (registry_inv_size this Hinv).
  - done.
  - intros pos Hpos. destruct Hinv as [[Horder Hkey] _ _].
    destruct (GetGMTicketByOrderPos_linked this pos Horder Hpos) as (k & _ & [t Ht] & Hret).
    exists t. unfold ticket_at_pos. rewrite Hret. simpl.
    split; [done|]. rewrite (Hkey _ _ Ht). eauto.
Qed.

(** Scenario S3 of the spec: owners 1, 2, 3 are created and 2 is deleted. *)
Lemma index_consistent_after_calls_witness :
  let calls := [CallCreate (MkGuid 1) "a" 1%Z; CallCreate (MkGuid 2) "b" 2%Z;
                CallCreate (MkGuid 3) "c" 3%Z; CallDelete (MkGuid 2)] in
  Forall owner_given calls ∧ index_consistent (sTicketMgr (run calls World_new)).
Proof.
  intros calls.
  assert (Forall owner_given calls) as Hcalls by (repeat constructor; done).
  split; [exact Hcalls | exact (index_consistent_after_calls calls Hcalls)].
Defined.

(** C4.  In a registry state (one whose containers are linked, as they
    are after any calls, see [run_linked]) that holds a ticket for owner
    [A], after [Delete A] the lookup by owner returns null, no position
    returns the pointer of [A] or resolves to a ticket owned by [A], the
    count is one less, the creation order is the one before without the
    pointer of [A], the other pointers in the order they had (where no
    pointer stands twice in the list, the pointer of [A] is taken out in
    place), and the tickets of the other owners are the same. *)
Theorem Delete_removes_ticket (w : World) (A : ObjectGuid) :
  linked (sTicketMgr w) →
  is_Some (m_GMTicketMap (sTicketMgr w) !! A) →
  let this := sTicketMgr w in
  let this' := sTicketMgr (Delete A w) in
  GetGMTicket A this' = NULL
  ∧ (∀ pos, GetGMTicketByOrderPos pos this' ≠ Returns (TicketAt A))
  ∧ (∀ pos t, ticket_at_pos pos this' = Some t → GetPlayerGuid t ≠ A)
  ∧ 0 < GetTicketCount this
  ∧ GetTicketCount this' = GetTicketCount this - 1
  ∧ m_GMTicketListByCreatingOrder this'
    = filter (λ p, p ≠ TicketAt A) (m_GMTicketListByCreatingOrder this)
  ∧ (NoDup (m_GMTicketListByCreatingOrder this) →
     ∃ l1 l2, m_GMTicketListByCreatingOrder this = l1 ++ TicketAt A :: l2
              ∧ m_GMTicketListByCreatingOrder this' = l1 ++ l2)
  ∧ (∀ k, k ≠ A → m_GMTicketMap this' !! k = m_GMTicketMap this !! k).
Proof.
  intros Hlinked HA this this'.
  assert (linked this') as [Horder' Hkey'] by by apply Delete_linked.
  assert (m_GMTicketMap this' !! A = None) as Hgone
    by (unfold this'; by rewrite Delete_map, lookup_delete_eq).
  assert (m_GMTicketListByCreatingOrder this'
          = list_remove_all (TicketAt A) (m_GMTicketListByCreatingOrder this)) as Hlist'
    by (unfold this'; by rewrite Delete_list).
  pose proof (map_size_pos _ _ HA) as Hsize.
  split_and!.
  - unfold GetGMTicket. by rewrite Hgone.
  - intros pos Hret. destruct (decide (pos < GetTicketCount this')) as [Hpos|Hpos].
    + destruct (GetGMTicketByOrderPos_linked this' pos Horder' Hpos) as (k & _ & Hk & Hret').
      rewrite Hret in Hret'. injection Hret' as <-. rewrite Hgone in Hk. by destruct Hk.
    + rewrite GetGMTicketByOrderPos_beyond in Hret by lia. done.
  - intros pos t Hat <-. unfold ticket_at_pos in Hat.
    destruct (GetGMTicketByOrderPos pos this') as [p|]; [|done].
    apply (deref_guid_is_key this' p t Hkey') in Hat as [_ Ht]. congruence.
  - unfold GetTicketCount, this. lia.
  - unfold GetTicketCount, this', this. rewrite Delete_map, map_size_delete_Some by done.
    lia.
  - exact Hlist'.
  - intros Hnd. destruct Hlinked as [Horder _].
    assert (TicketAt A ∈ m_GMTicketListByCreatingOrder this) as Hin
      by (apply Horder; eauto).
    apply list_elem_of_split in Hin as (l1 & l2 & Hlist).
    exists l1, l2. split; [done|].
    rewrite Hlist', Hlist. rewrite Hlist in Hnd.
    apply NoDup_app in Hnd as (_ & Hl1 & [Hl2 _]%NoDup_cons).
    apply list_remove_all_once; [|done].
    intros Hin. apply (Hl1 _ Hin). set_solver.
  - intros k Hk. unfold this'. by rewrite Delete_map, lookup_delete_ne.
Qed.

(** Scenario S3 of the spec: with owners 1, 2, 3 created in this order,
    deleting 2 leaves 1 and 3 at the positions 0 and 1. *)
Lemma Delete_removes_ticket_witness :
  let w := run [CallCreate (MkGuid 1) "a" 1%Z; CallCreate (MkGuid 2) "b" 2%Z;
                CallCreate (MkGuid 3) "c" 3%Z] World_new in
  let this' := sTicketMgr (Delete (MkGuid 2) w) in
  linked (sTicketMgr w)
  ∧ is_Some (m_GMTicketMap (sTicketMgr w) !! MkGuid 2)
  ∧ GetGMTicket (MkGuid 2) this' = NULL
  ∧ GetTicketCount this' = 2
  ∧ (∀ pos, GetGMTicketByOrderPos pos this' ≠ Returns (TicketAt (MkGuid 2)))
  ∧ m_GMTicketListByCreatingOrder this' = [TicketAt (MkGuid 1); TicketAt (MkGuid 3)].
Proof.
  intros w this'.
  assert (linked (sTicketMgr w)) as Hlinked by apply run_linked.
  assert (is_Some (m_GMTicketMap (sTicketMgr w) !! MkGuid 2)) as H2
    by (eexists; reflexivity).
  destruct (Delete_removes_ticket w (MkGuid 2) Hlinked H2)
    as (Hnull & Hpos & _ & _ & Hcount & Hlist & _).
  split_and!; [exact Hlinked | exact H2 | exact Hnull | exact Hcount | exact Hpos | exact Hlist].
Defined.

(** C5.  From the new registry, creating tickets for three distinct
    owners [A], [B], [C] in this order makes the positions 0, 1 and 2
    return the pointers of, and resolve to the tickets of, [A], [B] and
    [C].  The owners need not be assumed non-empty for this. *)
Theorem Create_in_order (A B C : ObjectGuid) (ta tb tc : string) (na nb nc : Z) :
  A ≠ B → A ≠ C → B ≠ C →
  let this := sTicketMgr (Create C tc nc (Create B tb nb (Create A ta na World_new))) in
  GetTicketCount this = 3
  ∧ GetGMTicketByOrderPos 0 this = Returns (TicketAt A)
  ∧ GetGMTicketByOrderPos 1 this = Returns (TicketAt B)
  ∧ GetGMTicketByOrderPos 2 this = Returns (TicketAt C)
  ∧ (∃ t, ticket_at_pos 0 this = Some t ∧ GetPlayerGuid t = A ∧ GetText t = ta)
  ∧ (∃ t, ticket_at_pos 1 this = Some t ∧ GetPlayerGuid t = B ∧ GetText t = tb)
  ∧ (∃ t, ticket_at_pos 2 this = Some t ∧ GetPlayerGuid t = C ∧ GetText t = tc).
Proof.
  intros HAB HAC HBC this.
  set (wA := Create A ta na World_new).
  set (wB := Create B tb nb wA).
  assert (m_GMTicketMap (sTicketMgr wA) !! B = None) as HB
    by (unfold wA; by rewrite Create_map, lookup_insert_ne).
  assert (m_GMTicketMap (sTicketMgr wB) !! C = None) as HC
    by (unfold wB, wA; by rewrite !Create_map, !lookup_insert_ne).
  assert (m_GMTicketListByCreatingOrder this = [TicketAt A; TicketAt B; TicketAt C])
    as Hlist.
  { unfold this. fold wA. fold wB. rewrite Create_list_fresh by done.
    unfold wB. rewrite Create_list_fresh by done.
    unfold wA. by rewrite Create_list_fresh. }
  assert (GetTicketCount this = 3) as Hcount.
  { unfold this. fold wA. fold wB. rewrite GetTicketCount_Create_fresh by done.
    unfold wB. rewrite GetTicketCount_Create_fresh by done.
    unfold wA. by rewrite GetTicketCount_Create_fresh. }
  assert (GetGMTicketByOrderPos 0 this = Returns (TicketAt A)) as H0
    by (apply GetGMTicketByOrderPos_within; [lia | by rewrite Hlist]).
  assert (GetGMTicketByOrderPos 1 this = Returns (TicketAt B)) as H1
    by (apply GetGMTicketByOrderPos_within; [lia | by rewrite Hlist]).
  assert (GetGMTicketByOrderPos 2 this = Returns (TicketAt C)) as H2
    by (apply GetGMTicketByOrderPos_within; [lia | by rewrite Hlist]).
  split_and!; try done.
  - exists (MkTicket A ta EmptyString na). split; [|done].
    unfold ticket_at_pos. rewrite H0, deref_TicketAt. cbv delta [this wB wA].
    rewrite !Create_map.
    by rewrite (lookup_insert_ne _ C A), (lookup_insert_ne _ B A), lookup_insert_eq.
  - exists (MkTicket B tb EmptyString nb). split; [|done].
    unfold ticket_at_pos. rewrite H1, deref_TicketAt. cbv delta [this wB wA].
    rewrite !Create_map.
    by rewrite (lookup_insert_ne _ C B), lookup_insert_eq.
  - exists (MkTicket C tc EmptyString nc). split; [|done].
    unfold ticket_at_pos. rewrite H2, deref_TicketAt. cbv delta [this wB wA].
    by rewrite Create_map, lookup_insert_eq.
Qed.

Lemma Create_in_order_witness :
  let this := sTicketMgr (Create (MkGuid 3) "c" 3 (Create (MkGuid 2) "b" 2
                            (Create (MkGuid 1) "a" 1 World_new))) in
  (MkGuid 1 ≠ MkGuid 2 ∧ MkGuid 1 ≠ MkGuid 3 ∧ MkGuid 2 ≠ MkGuid 3)
  ∧ GetTicketCount this = 3
  ∧ GetGMTicketByOrderPos 0 this = Returns (TicketAt (MkGuid 1))
  ∧ GetGMTicketByOrderPos 1 this = Returns (TicketAt (MkGuid 2))
  ∧ GetGMTicketByOrderPos 2 this = Returns (TicketAt (MkGuid 3)).
Proof.
  intros this.
  assert (MkGuid 1 ≠ MkGuid 2) as H12 by done.
  assert (MkGuid 1 ≠ MkGuid 3) as H13 by done.
  assert (MkGuid 2 ≠ MkGuid 3) as H23 by done.
  destruct (Create_in_order (MkGuid 1) (MkGuid 2) (MkGuid 3) "a" "b" "c" 1 2 3 H12 H13 H23)
    as (Hcount & H0 & H1 & H2 & _).
  split_and!; [exact H12 | exact H13 | exact H23 | exact Hcount | exact H0 | exact H1 | exact H2].
Defined.

(** C6.  In a registry state (one whose containers are linked, as they
    are after any calls, see [run_linked]) the lookup by owner returns
    null exactly when the map has no ticket for the owner, and else the
    pointer to the ticket kept for that owner; the lookup by position
    returns null exactly when the position is not below the count, and
    else the pointer at that offset of the creation order, which is not
    null; and the lookup by position never steps past the end of the
    list. *)
Theorem lookups_return_or_null (this : GMTicketMgr) (guid : ObjectGuid) (pos : N) :
  linked this →
  (GetGMTicket guid this = NULL ↔ m_GMTicketMap this !! guid = None)
  ∧ (∀ t, m_GMTicketMap this !! guid = Some t →
          GetGMTicket guid this = TicketAt guid
          ∧ ticket_of guid this = Some t
          ∧ GetPlayerGuid t = guid)
  ∧ (GetGMTicketByOrderPos pos this = Returns NULL ↔ GetTicketCount this ≤ pos)
  ∧ (pos < GetTicketCount this →
     ∃ p, m_GMTicketListByCreatingOrder this !! N.to_nat pos = Some p
          ∧ p ≠ NULL
          ∧ GetGMTicketByOrderPos pos this = Returns p)
  ∧ GetGMTicketByOrderPos pos this ≠ Undefined.
Proof.
  intros [Horder Hkey].
  assert (pos < GetTicketCount this →
          ∃ p, m_GMTicketListByCreatingOrder this !! N.to_nat pos = Some p
               ∧ p ≠ NULL ∧ GetGMTicketByOrderPos pos this = Returns p) as Hwithin.
  { intros Hpos.
    destruct (GetGMTicketByOrderPos_linked this pos Horder Hpos) as (k & Hk & _ & Hret).
    by exists (TicketAt k). }
  split_and!.
  - unfold GetGMTicket. by destruct (m_GMTicketMap this !! guid).
  - intros t Ht. unfold ticket_of, GetGMTicket. rewrite Ht. simpl.
    split_and!; [done | done | by apply Hkey].
  - split.
    + intros Hnull. destruct (decide (GetTicketCount this ≤ pos)) as [|Hlt]; [done|].
      destruct Hwithin as (p & _ & Hp & Hret); [lia|]. congruence.
    + apply GetGMTicketByOrderPos_beyond.
  - done.
  - destruct (decide (GetTicketCount this ≤ pos)) as [Hge|Hlt].
    + by rewrite GetGMTicketByOrderPos_beyond.
    + destruct Hwithin as (p & _ & _ & ->); [lia | done].
Qed.

(** After scenario S3, owner 3 is found, at position 1, and position 2 is
    beyond the two tickets. *)
Lemma lookups_return_or_null_witness :
  let this := sTicketMgr (run [CallCreate (MkGuid 1) "a" 1%Z; CallCreate (MkGuid 2) "b" 2%Z;
                               CallCreate (MkGuid 3) "c" 3%Z; CallDelete (MkGuid 2)]
                              World_new) in
  linked this
  ∧ GetGMTicket (MkGuid 3) this = TicketAt (MkGuid 3)
  ∧ (GetGMTicketByOrderPos 2 this = Returns NULL ↔ GetTicketCount this ≤ 2)
  ∧ GetGMTicketByOrderPos 2 this ≠ Undefined.
Proof.
  intros this.
  assert (linked this) as Hlinked by apply run_linked.
  destruct (lookups_return_or_null this (MkGuid 3) 2 Hlinked)
    as (_ & Hfound & Hnull & _ & Hdefined).
  split_and!; [exact Hlinked | | exact Hnull | exact Hdefined].
  exact (proj1 (Hfound (MkTicket (MkGuid 3) "c" EmptyString 3) eq_refl)).
Defined.

(** Whatever the state, a second [Create] with the empty guid finds the
    node of the first, with the empty guid in it, and so removes nothing
    from the list before it appends. *)
Lemma Create_empty_guid_again w t1 n1 t2 n2 :
  let w1 := Create ObjectGuid_empty t1 n1 w in
  let w2 := Create ObjectGuid_empty t2 n2 w1 in
  m_GMTicketListByCreatingOrder (sTicketMgr w2)
  = m_GMTicketListByCreatingOrder (sTicketMgr w1) ++ [TicketAt ObjectGuid_empty]
  ∧ size (m_GMTicketMap (sTicketMgr w2)) = size (m_GMTicketMap (sTicketMgr w1)).
Proof.
  intros w1 w2.
  assert (m_GMTicketMap (sTicketMgr w1) !! ObjectGuid_empty
          = Some (MkTicket ObjectGuid_empty t1 EmptyString n1)) as Hw1
    by (unfold w1; by rewrite Create_map, lookup_insert_eq).
  split.
  - by apply (Create_list_keep w1 _ _ _ _ Hw1).
  - unfold w2. rewrite Create_map. apply map_size_insert_Some. eauto.
Qed.

(** C7.  From a state reached by calls that keep the contract of
    [Create], where the two containers have the same size, a [Create] with
    the empty guid stores a ticket under the empty guid and appends its
    pointer; a second one finds that node, sees the empty guid in it and
    so leaves the pointer in the list, stores the new ticket in the same
    node and appends the pointer once more: the list then has the pointer
    twice for one entry of the map, and is one longer than the map.  The
    second [Create] keeps the pointer and the size of the map in any state
    whatever. *)
Theorem Create_empty_guid_twice (calls : list Call) (t1 t2 : string) (n1 n2 : Z) :
  Forall owner_given calls →
  let w := run calls World_new in
  let w1 := Create ObjectGuid_empty t1 n1 w in
  let w2 := Create ObjectGuid_empty t2 n2 w1 in
  let order w := m_GMTicketListByCreatingOrder (sTicketMgr w) in
  let owners w := m_GMTicketMap (sTicketMgr w) in
  length (order w) = size (owners w)
  ∧ owners w1 !! ObjectGuid_empty = Some (MkTicket ObjectGuid_empty t1 EmptyString n1)
  ∧ order w1 = order w ++ [TicketAt ObjectGuid_empty]
  ∧ owners w2 = <[ObjectGuid_empty := MkTicket ObjectGuid_empty t2 EmptyString n2]> (owners w1)
  ∧ size (owners w2) = size (owners w1)
  ∧ order w2 = order w ++ [TicketAt ObjectGuid_empty; TicketAt ObjectGuid_empty]
  ∧ length (order w2) = S (size (owners w2))
  ∧ GetTicketCount (sTicketMgr w2) ≠ N.of_nat (length (order w2))
  ∧ (∀ w0, order (Create ObjectGuid_empty t2 n2 (Create ObjectGuid_empty t1 n1 w0))
           = order (Create ObjectGuid_empty t1 n1 w0) ++ [TicketAt ObjectGuid_empty]
           ∧ size (owners (Create ObjectGuid_empty t2 n2 (Create ObjectGuid_empty t1 n1 w0)))
             = size (owners (Create ObjectGuid_empty t1 n1 w0))).
Proof.
  intros Hcalls w w1 w2 order owners.
  pose proof (run_registry_inv calls Hcalls) as Hinv. fold w in Hinv.
  assert (length (order w) = size (owners w)) as Hsize
    by apply (registry_inv_size _ Hinv).
  assert (owners w !! ObjectGuid_empty = None) as Hnone by apply Hinv.
  assert (owners w1 !! ObjectGuid_empty
          = Some (MkTicket ObjectGuid_empty t1 EmptyString n1)) as Hw1
    by (unfold owners, w1; by rewrite Create_map, lookup_insert_eq).
  assert (order w1 = order w ++ [TicketAt ObjectGuid_empty]) as Ho1
    by (by apply Create_list_fresh).
  destruct (Create_empty_guid_again w t1 n1 t2 n2) as [Hagain Hs2].
  fold w1 w2 in Hagain, Hs2. fold (order w1) (order w2) in Hagain.
  fold (owners w1) (owners w2) in Hs2.
  assert (order w2 = order w ++ [TicketAt ObjectGuid_empty; TicketAt ObjectGuid_empty])
    as Ho2 by (rewrite Hagain, Ho1; by rewrite <- (assoc_L (++))).
  assert (size (owners w1) = S (size (owners w))) as Hs1
    by (unfold owners, w1; rewrite Create_map; by apply map_size_insert_None).
  assert (length (order w2) = S (size (owners w2))) as Hlen
    by (rewrite Ho2, Hs2, Hs1, length_app, Hsize; simpl; lia).
  split_and!; try done.
  - unfold owners at 1, w2. by rewrite Create_map.
  - rewrite Hlen. unfold GetTicketCount.
    change (m_GMTicketMap (sTicketMgr w2)) with (owners w2).
    generalize (size (owners w2)). intros n. lia.
  - intros w0. apply Create_empty_guid_again.
Qed.

(** In the new registry: one entry in the map, the pointer twice in the
    list. *)
Lemma Create_empty_guid_twice_witness :
  let w2 := Create ObjectGuid_empty "b" 2 (Create ObjectGuid_empty "a" 1 World_new) in
  Forall owner_given []
  ∧ m_GMTicketListByCreatingOrder (sTicketMgr w2)
    = [TicketAt ObjectGuid_empty; TicketAt ObjectGuid_empty]
  ∧ size (m_GMTicketMap (sTicketMgr w2)) = 1%nat
  ∧ GetTicketCount (sTicketMgr w2)
    ≠ N.of_nat (length (m_GMTicketListByCreatingOrder (sTicketMgr w2))).
Proof.
  intros w2.
  destruct (Create_empty_guid_twice [] "a" "b" 1 2 (Forall_nil_2 owner_given))
    as (_ & _ & _ & _ & _ & Horder & _ & Hdiffer & _).
  split_and!; [apply Forall_nil_2 | exact Horder | reflexivity | exact Hdiffer].
Defined.

(** C8.  Two runs of [Create] with the same owner, text and time, in
    states with the same map and the same creation order, end with the
    same map and the same creation order whatever the flag is in each, and
    neither changes its flag. *)
Theorem Create_ignores_flag (w1 w2 : World) (guid : ObjectGuid) (text : string) (now : Z) :
  m_GMTicketMap (sTicketMgr w1) = m_GMTicketMap (sTicketMgr w2) →
  m_GMTicketListByCreatingOrder (sTicketMgr w1)
  = m_GMTicketListByCreatingOrder (sTicketMgr w2) →
  let w1' := Create guid text now w1 in
  let w2' := Create guid text now w2 in
  m_GMTicketMap (sTicketMgr w1') = m_GMTicketMap (sTicketMgr w2')
  ∧ m_GMTicketListByCreatingOrder (sTicketMgr w1')
    = m_GMTicketListByCreatingOrder (sTicketMgr w2')
  ∧ m_TicketSystemOn (sTicketMgr w1') = m_TicketSystemOn (sTicketMgr w1)
  ∧ m_TicketSystemOn (sTicketMgr w2') = m_TicketSystemOn (sTicketMgr w2).
Proof.
  intros Hmap Hlist w1' w2'. split_and!.
  - unfold w1', w2'. by rewrite !Create_map, Hmap.
  - unfold w1', w2', Create. rewrite Hmap, Hlist.
    by destruct (guid_to_bool _).
  - apply Create_flag.
  - apply Create_flag.
Qed.

(** Owner 42 files a ticket with the system on and with the system off. *)
Lemma Create_ignores_flag_witness :
  let w_on := World_new in
  let w_off := MkWorld (SetAcceptTickets false GMTicketMgr_new) [] in
  let w_on' := Create (MkGuid 42) "help stuck" 1000 w_on in
  let w_off' := Create (MkGuid 42) "help stuck" 1000 w_off in
  m_GMTicketMap (sTicketMgr w_on) = m_GMTicketMap (sTicketMgr w_off)
  ∧ m_GMTicketListByCreatingOrder (sTicketMgr w_on)
    = m_GMTicketListByCreatingOrder (sTicketMgr w_off)
  ∧ WillAcceptTickets (sTicketMgr w_on) ≠ WillAcceptTickets (sTicketMgr w_off)
  ∧ m_GMTicketMap (sTicketMgr w_on') = m_GMTicketMap (sTicketMgr w_off')
  ∧ m_GMTicketListByCreatingOrder (sTicketMgr w_on')
    = m_GMTicketListByCreatingOrder (sTicketMgr w_off')
  ∧ WillAcceptTickets (sTicketMgr w_off') = false.
Proof.
  intros w_on w_off w_on' w_off'.
  destruct (Create_ignores_flag w_on w_off (MkGuid 42) "help stuck" 1000 eq_refl eq_refl)
    as (Hmap & Hlist & _ & Hflag).
  split_and!; [reflexivity | reflexivity | discriminate | exact Hmap | exact Hlist | exact Hflag].
Defined.

(** C9.  [SetAcceptTickets b] leaves the map, the creation order and so
    every ticket a pointer resolves to, the count and both lookups as they
    are, and [WillAcceptTickets] then returns [b]. *)
Theorem SetAcceptTickets_frame (this : GMTicketMgr) (b : bool) :
  let this' := SetAcceptTickets b this in
  m_GMTicketMap this' = m_GMTicketMap this
  ∧ m_GMTicketListByCreatingOrder this' = m_GMTicketListByCreatingOrder this
  ∧ (∀ p, deref p (m_GMTicketMap this') = deref p (m_GMTicketMap this))
  ∧ GetTicketCount this' = GetTicketCount this
  ∧ (∀ guid, GetGMTicket guid this' = GetGMTicket guid this)
  ∧ (∀ pos, GetGMTicketByOrderPos pos this' = GetGMTicketByOrderPos pos this)
  ∧ WillAcceptTickets this' = b.
Proof. by split_and!. Qed.

(** C10.  [HasResponse] is true exactly when the response text is not the
    empty string. *)
Theorem HasResponse_iff (t : GMTicket) :
  HasResponse t = true ↔ GetResponse t ≠ EmptyString.
Proof.
  unfold HasResponse, GetResponse.
  rewrite negb_true_iff, <- not_true_iff_false, string_empty_true. done.
Qed.

(** ** Further properties of the registry *)

Lemma GMTicketMgr_eq (a b : GMTicketMgr) :
  m_TicketSystemOn a = m_TicketSystemOn b →
  m_GMTicketMap a = m_GMTicketMap b →
  m_GMTicketListByCreatingOrder a = m_GMTicketListByCreatingOrder b →
  a = b.
Proof. destruct a, b. simpl. congruence. Qed.

Lemma World_eq (a b : World) :
  sTicketMgr a = sTicketMgr b → CharacterDatabase a = CharacterDatabase b → a = b.
Proof. destruct a, b. simpl. congruence. Qed.

Lemma list_remove_all_self value : list_remove_all value [value] = [].
Proof.
  unfold list_remove_all. rewrite filter_cons. by destruct (decide (value ≠ value)).
Qed.

Lemma list_remove_all_twice value l :
  list_remove_all value (list_remove_all value l) = list_remove_all value l.
Proof.
  apply list_remove_all_absent. rewrite elem_of_list_remove_all.
  intros [_ Hne]. by apply Hne.
Qed.

Lemma list_remove_all_comm a b l :
  list_remove_all a (list_remove_all b l) = list_remove_all b (list_remove_all a l).
Proof.
  unfold list_remove_all. induction l as [|x l IH]; [done|].
  rewrite !(filter_cons _ x).
  destruct (decide (x ≠ b)), (decide (x ≠ a)); rewrite ?(filter_cons _ x);
    repeat case_decide; try done; by rewrite IH.
Qed.

(** X1.  After any calls of [Create] and [Delete] whatever, from the new
    registry, every pointer of the creation order is the address of a
    ticket that is in the map (none is null, none dangles), the count is
    at most the length of the list, and the lookup by position never steps
    past the end of the list. *)
Theorem no_dangling_pointer (calls : list Call) :
  let this := sTicketMgr (run calls World_new) in
  (∀ p, p ∈ m_GMTicketListByCreatingOrder this →
        ∃ t, deref p (m_GMTicketMap this) = Some t ∧ p = TicketAt (GetPlayerGuid t))
  ∧ GetTicketCount this ≤ N.of_nat (length (m_GMTicketListByCreatingOrder this))
  ∧ ∀ pos, GetGMTicketByOrderPos pos this ≠ Undefined.
Proof.
  intros this. destruct (run_linked calls) as [Horder Hkey]. fold this in Horder, Hkey.
  split_and!.
  - intros p (k & -> & [t Ht])%Horder. exists t. split; [done|].
    by rewrite (Hkey _ _ Ht).
  - pose proof (linked_size_le this Horder). unfold GetTicketCount. lia.
  - intros pos. destruct (decide (pos < GetTicketCount this)) as [Hpos|Hpos].
    + destruct (GetGMTicketByOrderPos_linked this pos Horder Hpos) as (k & _ & _ & ->).
      done.
    + by rewrite GetGMTicketByOrderPos_beyond by lia.
Qed.

(** X2.  After calls that give every [Create] a non-empty owner, no
    pointer stands twice in the creation order, no ticket is kept under
    the empty guid, and no stored ticket has the empty guid as its
    owner. *)
Theorem one_ticket_per_owner (calls : list Call) :
  Forall owner_given calls →
  let this := sTicketMgr (run calls World_new) in
  NoDup (m_GMTicketListByCreatingOrder this)
  ∧ GetGMTicket ObjectGuid_empty this = NULL
  ∧ (∀ k t, m_GMTicketMap this !! k = Some t →
            GetPlayerGuid t = k ∧ GetPlayerGuid t ≠ ObjectGuid_empty).
Proof.
  intros Hcalls this.
  destruct (run_registry_inv calls Hcalls) as [[_ Hkey] Hnd Hown].
  fold this in Hkey, Hnd, Hown. split_and!.
  - done.
  - unfold GetGMTicket. by rewrite Hown.
  - intros k t Ht. rewrite (Hkey _ _ Ht). split; [done|].
    intros ->. by rewrite Hown in Ht.
Qed.

Lemma one_ticket_per_owner_witness :
  let calls := [CallCreate (MkGuid 1) "a" 1%Z; CallCreate (MkGuid 2) "b" 2%Z;
                CallCreate (MkGuid 1) "c" 3%Z; CallDelete (MkGuid 2)] in
  Forall owner_given calls
  ∧ NoDup (m_GMTicketListByCreatingOrder (sTicketMgr (run calls World_new))).
Proof.
  intros calls.
  assert (Forall owner_given calls) as Hcalls by (repeat constructor; done).
  split; [exact Hcalls | exact (proj1 (one_ticket_per_owner calls Hcalls))].
Defined.

(** X3.  In a state with the invariants of the data model, every ticket
    of the map is returned by the lookup by position at exactly one
    position, and that position is below the count: the positions
    enumerate the tickets with none left out and none twice. *)
Theorem every_ticket_has_one_position (this : GMTicketMgr) (guid : ObjectGuid) (t : GMTicket) :
  registry_inv this →
  m_GMTicketMap this !! guid = Some t →
  ∃ pos, pos < GetTicketCount this
         ∧ GetGMTicketByOrderPos pos this = Returns (TicketAt guid)
         ∧ ticket_at_pos pos this = Some t
         ∧ ∀ pos', GetGMTicketByOrderPos pos' this = Returns (TicketAt guid) → pos' = pos.
Proof.
  intros Hinv Ht. pose proof (registry_inv_size this Hinv) as Hsize.
  destruct Hinv as [[Horder Hkey] Hnd Hown].
  assert (TicketAt guid ∈ m_GMTicketListByCreatingOrder this) as Hin
    by (apply Horder; eauto).
  apply list_elem_of_lookup in Hin as [i Hi].
  pose proof (lookup_lt_Some _ _ _ Hi) as Hlt.
  assert (N.of_nat i < GetTicketCount this) as Hpos by (unfold GetTicketCount; lia).
  assert (GetGMTicketByOrderPos (N.of_nat i) this = Returns (TicketAt guid)) as Hret
    by (apply GetGMTicketByOrderPos_within; [done | by rewrite Nat2N.id]).
  exists (N.of_nat i). split_and!; [done | done | |].
  - unfold ticket_at_pos. by rewrite Hret.
  - intros pos' Hret'. destruct (decide (pos' < GetTicketCount this)) as [Hpos'|Hpos'].
    + destruct (GetGMTicketByOrderPos_linked this pos' Horder Hpos') as (k & Hk & _ & Hk').
      rewrite Hret' in Hk'. injection Hk' as <-.
      pose proof (NoDup_lookup _ _ _ _ Hnd Hk Hi). lia.
    + rewrite GetGMTicketByOrderPos_beyond in Hret' by lia. done.
Qed.

(** After owners 1, 2, 3 are created, the ticket of 2 is at position 1. *)
Lemma every_ticket_has_one_position_witness :
  let this := sTicketMgr (run [CallCreate (MkGuid 1) "a" 1%Z; CallCreate (MkGuid 2) "b" 2%Z;
                               CallCreate (MkGuid 3) "c" 3%Z] World_new) in
  registry_inv this
  ∧ m_GMTicketMap this !! MkGuid 2 = Some (MkTicket (MkGuid 2) "b" EmptyString 2)
  ∧ ∃ pos, pos < GetTicketCount this
           ∧ GetGMTicketByOrderPos pos this = Returns (TicketAt (MkGuid 2)).
Proof.
  intros this.
  assert (registry_inv this) as Hinv
    by (apply run_registry_inv; repeat constructor; done).
  assert (m_GMTicketMap this !! MkGuid 2 = Some (MkTicket (MkGuid 2) "b" EmptyString 2))
    as H2 by reflexivity.
  destruct (every_ticket_has_one_position this (MkGuid 2) _ Hinv H2)
    as (pos & Hpos & Hret & _).
  split_and!; [exact Hinv | exact H2 | exists pos; split; [exact Hpos | exact Hret]].
Defined.

(** X4.  Where every stored ticket carries the key of its node, a ticket
    that a position resolves to is found below the count, and the lookup
    by the owner of that ticket returns the same pointer and resolves to
    the same ticket: both lookups reach one object. *)
Theorem lookups_agree (this : GMTicketMgr) (pos : N) (t : GMTicket) :
  guid_is_key this →
  ticket_at_pos pos this = Some t →
  pos < GetTicketCount this
  ∧ GetGMTicketByOrderPos pos this = Returns (GetGMTicket (GetPlayerGuid t) this)
  ∧ ticket_of (GetPlayerGuid t) this = Some t.
Proof.
  intros Hkey Hat. unfold ticket_at_pos in Hat.
  destruct (GetGMTicketByOrderPos pos this) as [p|] eqn:Hret; [|done].
  destruct (deref_guid_is_key this p t Hkey Hat) as [-> Ht].
  assert (GetGMTicket (GetPlayerGuid t) this = TicketAt (GetPlayerGuid t)) as Hown
    by (unfold GetGMTicket; by rewrite Ht).
  split_and!.
  - destruct (decide (pos < GetTicketCount this)) as [|Hge]; [done|].
    rewrite GetGMTicketByOrderPos_beyond in Hret by lia. done.
  - by rewrite Hown.
  - unfold ticket_of. by rewrite Hown.
Qed.

Lemma lookups_agree_witness :
  let this := sTicketMgr (run [CallCreate (MkGuid 1) "a" 1%Z; CallCreate (MkGuid 2) "b" 2%Z]
                              World_new) in
  guid_is_key this
  ∧ ticket_at_pos 1 this = Some (MkTicket (MkGuid 2) "b" EmptyString 2)
  ∧ GetGMTicketByOrderPos 1 this = Returns (GetGMTicket (MkGuid 2) this).
Proof.
  intros this.
  assert (guid_is_key this) as Hkey by apply run_linked.
  assert (ticket_at_pos 1 this = Some (MkTicket (MkGuid 2) "b" EmptyString 2)) as Hat
    by reflexivity.
  destruct (lookups_agree this 1 _ Hkey Hat) as (_ & Hret & _).
  split_and!; [exact Hkey | exact Hat | exact Hret].
Defined.

Lemma Create_list_snoc w guid text now :
  ∃ l0, m_GMTicketListByCreatingOrder (sTicketMgr (Create guid text now w))
        = l0 ++ [TicketAt guid]
        ∧ list_remove_all (TicketAt guid) l0
          = list_remove_all (TicketAt guid) (m_GMTicketListByCreatingOrder (sTicketMgr w)).
Proof.
  unfold Create. destruct (guid_to_bool _); simpl; eexists; (split; [done|]).
  - apply list_remove_all_twice.
  - done.
Qed.

Lemma Delete_list_cases w guid :
  m_GMTicketListByCreatingOrder (sTicketMgr (Delete guid w))
  = match m_GMTicketMap (sTicketMgr w) !! guid with
    | Some _ => list_remove_all (TicketAt guid) (m_GMTicketListByCreatingOrder (sTicketMgr w))
    | None => m_GMTicketListByCreatingOrder (sTicketMgr w)
    end.
Proof. unfold Delete. by destruct (m_GMTicketMap (sTicketMgr w) !! guid). Qed.

Lemma not_in_order_without_ticket this guid :
  order_matches_owner this →
  m_GMTicketMap this !! guid = None →
  TicketAt guid ∉ m_GMTicketListByCreatingOrder this.
Proof.
  intros Horder Hnone (k & [= <-] & Hk)%Horder. rewrite Hnone in Hk. by destruct Hk.
Qed.

(** X5.  Where the list holds no pointer for an owner without a ticket,
    creating a ticket for such an owner and deleting it again leaves the
    manager as it was; the database has been asked to save the ticket and
    then to delete it. *)
Theorem Create_then_Delete (w : World) (guid : ObjectGuid) (text : string) (now : Z) :
  order_matches_owner (sTicketMgr w) →
  m_GMTicketMap (sTicketMgr w) !! guid = None →
  let new := MkTicket guid text EmptyString now in
  sTicketMgr (Delete guid (Create guid text now w)) = sTicketMgr w
  ∧ CharacterDatabase (Delete guid (Create guid text now w))
    = CharacterDatabase w ++ [SaveToDB new; DeleteFromDB new].
Proof.
  intros Horder Hnone new.
  assert (m_GMTicketMap (sTicketMgr (Create guid text now w)) !! guid = Some new) as Hnew
    by (by rewrite Create_map, lookup_insert_eq).
  split.
  - apply GMTicketMgr_eq.
    + by rewrite Delete_flag, Create_flag.
    + rewrite Delete_map, Create_map. by apply delete_insert_id.
    + rewrite Delete_list by eauto. rewrite Create_list_fresh by done.
      rewrite list_remove_all_app, list_remove_all_self, app_nil_r.
      by apply list_remove_all_absent, not_in_order_without_ticket.
  - rewrite (Delete_db _ _ _ Hnew), Create_db_fresh by done.
    by rewrite <- (assoc_L (++)).
Qed.

Lemma Create_then_Delete_witness :
  let w := Create (MkGuid 1) "a" 1 World_new in
  order_matches_owner (sTicketMgr w)
  ∧ m_GMTicketMap (sTicketMgr w) !! MkGuid 42 = None
  ∧ sTicketMgr (Delete (MkGuid 42) (Create (MkGuid 42) "help stuck" 1000 w)) = sTicketMgr w.
Proof.
  intros w.
  assert (order_matches_owner (sTicketMgr w)) as Horder
    by apply (run_linked [CallCreate (MkGuid 1) "a" 1%Z]).
  split_and!; [exact Horder | reflexivity |].
  exact (proj1 (Create_then_Delete w (MkGuid 42) "help stuck" 1000 Horder eq_refl)).
Defined.

(** X6.  Where every stored ticket carries the key of its node, [Create]
    for a non-empty owner gives the same manager and the same database
    calls whether or not the ticket of that owner is deleted first:
    replacing a ticket is deleting it and creating it anew. *)
Theorem replace_is_Delete_then_Create (w : World) (guid : ObjectGuid) (text : string) (now : Z) :
  guid_is_key (sTicketMgr w) →
  guid ≠ ObjectGuid_empty →
  Create guid text now (Delete guid w) = Create guid text now w.
Proof.
  intros Hkey Hguid.
  destruct (m_GMTicketMap (sTicketMgr w) !! guid) as [old|] eqn:Hold;
    [|by rewrite Delete_absent].
  assert (GetPlayerGuid old ≠ ObjectGuid_empty) as Hold' by by rewrite (Hkey _ _ Hold).
  assert (m_GMTicketMap (sTicketMgr (Delete guid w)) !! guid = None) as Hgone
    by (by rewrite Delete_map, lookup_delete_eq).
  apply World_eq; [apply GMTicketMgr_eq|].
  - by rewrite !Create_flag, Delete_flag.
  - by rewrite !Create_map, Delete_map, insert_delete_eq.
  - rewrite Create_list_fresh by done. rewrite Delete_list by eauto.
    by rewrite (Create_list_replace _ _ _ _ old).
  - rewrite Create_db_fresh by done. rewrite (Delete_db _ _ old) by done.
    rewrite (Create_db_replace _ _ _ _ old) by done.
    by rewrite <- (assoc_L (++)).
Qed.

Lemma replace_is_Delete_then_Create_witness :
  let w := run [CallCreate (MkGuid 42) "help stuck" 1000%Z; CallCreate (MkGuid 7) "b" 1001%Z]
               World_new in
  guid_is_key (sTicketMgr w)
  ∧ MkGuid 42 ≠ ObjectGuid_empty
  ∧ Create (MkGuid 42) "still stuck" 1010 (Delete (MkGuid 42) w)
    = Create (MkGuid 42) "still stuck" 1010 w.
Proof.
  intros w.
  assert (guid_is_key (sTicketMgr w)) as Hkey by apply run_linked.
  assert (MkGuid 42 ≠ ObjectGuid_empty) as H42 by done.
  split_and!; [exact Hkey | exact H42 |].
  exact (replace_is_Delete_then_Create w (MkGuid 42) "still stuck" 1010 Hkey H42).
Defined.

(** X7.  In a state whose containers are linked, two calls of [Create]
    for the same non-empty owner leave the manager as the second call
    alone would: the map is the one before with the ticket of the second
    call (its text, its time, no response) under the owner, and the
    creation order is the one before without the pointer of the owner,
    followed by that pointer, which so stands once in the list, at its
    end. *)
Theorem last_Create_wins (w : World) (guid : ObjectGuid) (t1 t2 : string) (n1 n2 : Z) :
  linked (sTicketMgr w) →
  guid ≠ ObjectGuid_empty →
  let this := sTicketMgr w in
  let this2 := sTicketMgr (Create guid t2 n2 (Create guid t1 n1 w)) in
  this2 = sTicketMgr (Create guid t2 n2 w)
  ∧ m_GMTicketMap this2
    = <[guid := MkTicket guid t2 EmptyString n2]> (m_GMTicketMap this)
  ∧ ticket_of guid this2 = Some (MkTicket guid t2 EmptyString n2)
  ∧ m_GMTicketListByCreatingOrder this2
    = filter (λ p, p ≠ TicketAt guid) (m_GMTicketListByCreatingOrder this) ++ [TicketAt guid]
  ∧ last (m_GMTicketListByCreatingOrder this2) = Some (TicketAt guid)
  ∧ (∀ i j, m_GMTicketListByCreatingOrder this2 !! i = Some (TicketAt guid) →
            m_GMTicketListByCreatingOrder this2 !! j = Some (TicketAt guid) → i = j)
  ∧ m_TicketSystemOn this2 = m_TicketSystemOn this.
Proof.
  intros [Horder Hkey] Hguid this this2.
  set (w1 := Create guid t1 n1 w).
  assert (m_GMTicketMap (sTicketMgr w1) !! guid = Some (MkTicket guid t1 EmptyString n1))
    as Hw1 by (unfold w1; by rewrite Create_map, lookup_insert_eq).
  assert (m_GMTicketMap this2
          = <[guid := MkTicket guid t2 EmptyString n2]> (m_GMTicketMap this)) as Hmap
    by (unfold this2, this; by rewrite !Create_map, insert_insert_eq).
  assert (m_GMTicketListByCreatingOrder this2
          = list_remove_all (TicketAt guid) (m_GMTicketListByCreatingOrder this)
            ++ [TicketAt guid]) as Hlist.
  { unfold this2. fold w1. rewrite (Create_list_replace w1 _ _ _ _ Hw1) by done.
    f_equal. unfold w1.
    destruct (m_GMTicketMap (sTicketMgr w) !! guid) as [old|] eqn:Hold.
    - assert (GetPlayerGuid old ≠ ObjectGuid_empty) as Hold'
        by by rewrite (Hkey _ _ Hold).
      rewrite (Create_list_replace w _ _ _ old) by done.
      by rewrite list_remove_all_app, list_remove_all_self, app_nil_r,
        list_remove_all_twice.
    - rewrite Create_list_fresh by done.
      by rewrite list_remove_all_app, list_remove_all_self, app_nil_r. }
  assert (m_GMTicketListByCreatingOrder (sTicketMgr (Create guid t2 n2 w))
          = list_remove_all (TicketAt guid) (m_GMTicketListByCreatingOrder this)
            ++ [TicketAt guid]) as Hlist'.
  { destruct (m_GMTicketMap (sTicketMgr w) !! guid) as [old|] eqn:Hold.
    - assert (GetPlayerGuid old ≠ ObjectGuid_empty) as Hold'
        by by rewrite (Hkey _ _ Hold).
      by rewrite (Create_list_replace w _ _ _ old).
    - rewrite Create_list_fresh by done. f_equal. symmetry.
      by apply list_remove_all_absent, not_in_order_without_ticket. }
  split_and!.
  - apply GMTicketMgr_eq.
    + unfold this2. by rewrite !Create_flag.
    + by rewrite Hmap, Create_map.
    + by rewrite Hlist, Hlist'.
  - done.
  - unfold ticket_of, GetGMTicket. rewrite Hmap, lookup_insert_eq.
    by rewrite deref_TicketAt, lookup_insert_eq.
  - exact Hlist.
  - rewrite Hlist. apply last_snoc.
  - assert (∀ i, m_GMTicketListByCreatingOrder this2 !! i = Some (TicketAt guid) →
                 i = length (list_remove_all (TicketAt guid)
                               (m_GMTicketListByCreatingOrder this))) as Honly.
    { intros i. rewrite Hlist. intros [Hin | [Hle Hi]]%lookup_app_Some.
      - apply list_elem_of_lookup_2, elem_of_list_remove_all in Hin as [_ Hne]. done.
      - apply lookup_lt_Some in Hi as Hlt. simpl in Hlt. lia. }
    intros i j Hi Hj. by rewrite (Honly i Hi), (Honly j Hj).
  - unfold this2, this. by rewrite !Create_flag.
Qed.

(** Owner 42, created before owner 7, files twice more: the manager is
    the one a single call leaves, with 42 behind 7. *)
Lemma last_Create_wins_witness :
  let w := run [CallCreate (MkGuid 42) "a" 1%Z; CallCreate (MkGuid 7) "b" 2%Z] World_new in
  let this2 := sTicketMgr (Create (MkGuid 42) "still stuck" 1010
                             (Create (MkGuid 42) "help stuck" 1000 w)) in
  linked (sTicketMgr w)
  ∧ MkGuid 42 ≠ ObjectGuid_empty
  ∧ this2 = sTicketMgr (Create (MkGuid 42) "still stuck" 1010 w)
  ∧ ticket_of (MkGuid 42) this2
    = Some (MkTicket (MkGuid 42) "still stuck" EmptyString 1010)
  ∧ m_GMTicketListByCreatingOrder this2 = [TicketAt (MkGuid 7); TicketAt (MkGuid 42)].
Proof.
  intros w this2.
  assert (linked (sTicketMgr w)) as Hlinked by apply run_linked.
  assert (MkGuid 42 ≠ ObjectGuid_empty) as H42 by done.
  destruct (last_Create_wins w (MkGuid 42) "help stuck" "still stuck" 1000 1010 Hlinked H42)
    as (Hsame & _ & Hticket & Hlist & _).
  split_and!; [exact Hlinked | exact H42 | exact Hsame | exact Hticket | exact Hlist].
Defined.

(** X8.  In any state, deleting the ticket of an owner twice is deleting
    it once (the second call finds nothing and makes no database call),
    and deleting the tickets of two owners leaves the same manager in
    either order. *)
Theorem Delete_twice_and_swapped (w : World) (a b : ObjectGuid) :
  Delete a (Delete a w) = Delete a w
  ∧ sTicketMgr (Delete a (Delete b w)) = sTicketMgr (Delete b (Delete a w)).
Proof.
  split.
  - apply Delete_absent. by rewrite Delete_map, lookup_delete_eq.
  - destruct (decide (a = b)) as [->|Hab]; [done|].
    apply GMTicketMgr_eq.
    + by rewrite !Delete_flag.
    + rewrite !Delete_map. apply delete_delete.
    + rewrite !Delete_list_cases, !Delete_map.
      rewrite (lookup_delete_ne _ b a), (lookup_delete_ne _ a b) by done.
      destruct (m_GMTicketMap (sTicketMgr w) !! a), (m_GMTicketMap (sTicketMgr w) !! b);
        try done. apply list_remove_all_comm.
Qed.

(** X9.  In any state, [Create] for one owner leaves the ticket of every
    other owner as it is, under the same pointer, and keeps the other
    pointers of the creation order in the order they had. *)
Theorem Create_frame (w : World) (guid k : ObjectGuid) (text : string) (now : Z) :
  guid ≠ k →
  let this := sTicketMgr w in
  let this' := sTicketMgr (Create guid text now w) in
  m_GMTicketMap this' !! k = m_GMTicketMap this !! k
  ∧ GetGMTicket k this' = GetGMTicket k this
  ∧ ticket_of k this' = ticket_of k this
  ∧ (TicketAt k ∈ m_GMTicketListByCreatingOrder this'
     ↔ TicketAt k ∈ m_GMTicketListByCreatingOrder this)
  ∧ filter (λ p, p ≠ TicketAt guid) (m_GMTicketListByCreatingOrder this')
    = filter (λ p, p ≠ TicketAt guid) (m_GMTicketListByCreatingOrder this).
Proof.
  intros Hk this this'.
  assert (m_GMTicketMap this' !! k = m_GMTicketMap this !! k) as Hmap
    by (unfold this'; by rewrite Create_map, lookup_insert_ne).
  split_and!.
  - done.
  - unfold GetGMTicket. by rewrite Hmap.
  - unfold ticket_of, GetGMTicket. rewrite Hmap.
    destruct (m_GMTicketMap this !! k) eqn:Hthis; simpl; congruence.
  - unfold this'. rewrite elem_of_Create_list. split; [|by left].
    intros [Hin | [= ->]]; done.
  - destruct (Create_list_snoc w guid text now) as (l0 & Hl0 & Hrest).
    unfold this'. rewrite Hl0.
    change (list_remove_all (TicketAt guid) (l0 ++ [TicketAt guid])
            = list_remove_all (TicketAt guid) (m_GMTicketListByCreatingOrder this)).
    by rewrite list_remove_all_app, list_remove_all_self, app_nil_r.
Qed.

Lemma Create_frame_witness :
  let w := run [CallCreate (MkGuid 1) "a" 1%Z; CallCreate (MkGuid 2) "b" 2%Z] World_new in
  MkGuid 1 ≠ MkGuid 2
  ∧ ticket_of (MkGuid 2) (sTicketMgr (Create (MkGuid 1) "c" 3 w))
    = ticket_of (MkGuid 2) (sTicketMgr w).
Proof.
  intros w.
  assert (MkGuid 1 ≠ MkGuid 2) as H12 by done.
  destruct (Create_frame w (MkGuid 1) (MkGuid 2) "c" 3 H12) as (_ & _ & Hticket & _).
  split; [exact H12 | exact Hticket].
Defined.

Lemma last_db_call_snoc guid db c :
  last_db_call guid (db ++ [c])
  = if decide (DbCall_guid c = guid) then Some c else last_db_call guid db.
Proof.
  unfold last_db_call. rewrite filter_app, filter_cons, filter_nil.
  case_decide; [apply last_snoc | by rewrite app_nil_r].
Qed.

Lemma Create_db_keep w guid text now old :
  m_GMTicketMap (sTicketMgr w) !! guid = Some old →
  GetPlayerGuid old = ObjectGuid_empty →
  CharacterDatabase (Create guid text now w)
  = CharacterDatabase w ++ [SaveToDB (MkTicket guid text EmptyString now)].
Proof.
  intros Hold Hguid. unfold Create, subscript. rewrite Hold.
  rewrite (lookup_total_correct _ _ _ Hold).
  apply guid_to_bool_false in Hguid. by rewrite Hguid.
Qed.

Lemma Create_db_follows w guid text now :
  guid_is_key (sTicketMgr w) →
  (∀ k, db_follows w k) → ∀ k, db_follows (Create guid text now w) k.
Proof.
  intros Hkey Hw k. specialize (Hw k). unfold db_follows in *. rewrite Create_map.
  assert (∀ db, last_db_call k (db ++ [SaveToDB (MkTicket guid text EmptyString now)])
                = if decide (guid = k)
                  then Some (SaveToDB (MkTicket guid text EmptyString now))
                  else last_db_call k db) as Hsave
    by (intros db; apply last_db_call_snoc).
  destruct (m_GMTicketMap (sTicketMgr w) !! guid) as [old|] eqn:Hold.
  - destruct (decide (GetPlayerGuid old = ObjectGuid_empty)) as [Hempty|Hplayer].
    + rewrite (Create_db_keep _ _ _ _ old) by done. rewrite Hsave.
      destruct (decide (guid = k)) as [<-|Hne].
      * by rewrite lookup_insert_eq.
      * by rewrite lookup_insert_ne.
    + rewrite (Create_db_replace _ _ _ _ old) by done.
      rewrite cons_middle, (assoc_L (++)), Hsave.
      destruct (decide (guid = k)) as [<-|Hne].
      * by rewrite lookup_insert_eq.
      * rewrite lookup_insert_ne by done. rewrite last_db_call_snoc. simpl.
        rewrite (Hkey _ _ Hold). by rewrite decide_False.
  - rewrite Create_db_fresh by done. rewrite Hsave.
    destruct (decide (guid = k)) as [<-|Hne].
    + by rewrite lookup_insert_eq.
    + by rewrite lookup_insert_ne.
Qed.

Lemma Delete_db_follows w guid :
  guid_is_key (sTicketMgr w) →
  (∀ k, db_follows w k) → ∀ k, db_follows (Delete guid w) k.
Proof.
  intros Hkey Hw k.
  destruct (m_GMTicketMap (sTicketMgr w) !! guid) as [old|] eqn:Hold;
    [|by rewrite Delete_absent].
  specialize (Hw k). unfold db_follows in *.
  rewrite Delete_map, (Delete_db _ _ old), last_db_call_snoc by done. simpl.
  rewrite (Hkey _ _ Hold).
  destruct (decide (guid = k)) as [<-|Hne].
  - rewrite lookup_delete_eq. right. eauto.
  - by rewrite lookup_delete_ne.
Qed.

(** X10.  After any calls of [Create] and [Delete] whatever, from the
    new registry with no database call made: for an owner with a ticket,
    the last database call on a ticket of that owner is [SaveToDB] on the
    ticket as the map keeps it; for an owner without a ticket there was no
    such call, or the last one is a [DeleteFromDB]. *)
Theorem database_follows_registry (calls : list Call) (guid : ObjectGuid) :
  let w := run calls World_new in
  match m_GMTicketMap (sTicketMgr w) !! guid with
  | Some t => last_db_call guid (CharacterDatabase w) = Some (SaveToDB t)
  | None => last_db_call guid (CharacterDatabase w) = None
            ∨ ∃ t, last_db_call guid (CharacterDatabase w) = Some (DeleteFromDB t)
  end.
Proof.
  intros w. change (db_follows w guid). unfold w. clear w. revert guid.
  induction calls as [|c calls IH] using rev_ind.
  - intros guid. unfold db_follows. simpl. rewrite lookup_empty. by left.
  - rewrite run_snoc. pose proof (run_linked calls) as [_ Hkey].
    destruct c; simpl.
    + by apply Create_db_follows.
    + by apply Delete_db_follows.
Qed.

(** X11.  After calls that keep the contract of [Create], two calls of
    [Create] with the empty guid make the list one longer than the map, and
    a ticket then created for an owner who had none is found by its owner
    but returned by no position: its pointer stands at the offset of the
    count. *)
Theorem empty_guid_hides_next_ticket (calls : list Call) (t1 t2 text : string)
    (n1 n2 now : Z) (guid : ObjectGuid) :
  Forall owner_given calls →
  guid ≠ ObjectGuid_empty →
  m_GMTicketMap (sTicketMgr (run calls World_new)) !! guid = None →
  let w2 := Create ObjectGuid_empty t2 n2 (Create ObjectGuid_empty t1 n1 (run calls World_new)) in
  let this := sTicketMgr (Create guid text now w2) in
  GetGMTicket guid this = TicketAt guid
  ∧ m_GMTicketListByCreatingOrder this !! N.to_nat (GetTicketCount this) = Some (TicketAt guid)
  ∧ ∀ pos, GetGMTicketByOrderPos pos this ≠ Returns (TicketAt guid).
Proof.
  intros Hcalls Hguid Hnone w2 this. subst this w2.
  pose proof (run_registry_inv calls Hcalls) as Hinv.
  set (w := run calls World_new) in *.
  set (w1 := Create ObjectGuid_empty t1 n1 w).
  set (w2 := Create ObjectGuid_empty t2 n2 w1).
  set (this := sTicketMgr (Create guid text now w2)).
  pose proof (registry_inv_size _ Hinv) as Hsize.
  destruct Hinv as [[Horder _] _ Hown].
  assert (m_GMTicketListByCreatingOrder (sTicketMgr w2)
          = m_GMTicketListByCreatingOrder (sTicketMgr w1) ++ [TicketAt ObjectGuid_empty])
    as Hl2 by apply (Create_empty_guid_again w t1 n1 t2 n2).
  assert (size (m_GMTicketMap (sTicketMgr w2)) = size (m_GMTicketMap (sTicketMgr w1)))
    as Hs2 by apply (Create_empty_guid_again w t1 n1 t2 n2).
  assert (m_GMTicketListByCreatingOrder (sTicketMgr w1)
          = m_GMTicketListByCreatingOrder (sTicketMgr w) ++ [TicketAt ObjectGuid_empty])
    as Hl1 by (by apply Create_list_fresh).
  assert (size (m_GMTicketMap (sTicketMgr w1)) = S (size (m_GMTicketMap (sTicketMgr w))))
    as Hs1 by (unfold w1; rewrite Create_map; by apply map_size_insert_None).
  assert (m_GMTicketMap (sTicketMgr w2) !! guid = None) as Hnone2.
  { unfold w2, w1. rewrite !Create_map.
    by rewrite !(lookup_insert_ne _ ObjectGuid_empty guid). }
  assert (m_GMTicketListByCreatingOrder this
          = m_GMTicketListByCreatingOrder (sTicketMgr w2) ++ [TicketAt guid]) as Hl3
    by (by apply Create_list_fresh).
  assert (N.to_nat (GetTicketCount this)
          = length (m_GMTicketListByCreatingOrder (sTicketMgr w2))) as Hcount.
  { unfold this. rewrite GetTicketCount_Create_fresh by done. unfold GetTicketCount.
    rewrite Hs2, Hs1, Hl2, Hl1, !length_app, <- Hsize. simpl. lia. }
  assert (TicketAt guid ∉ m_GMTicketListByCreatingOrder (sTicketMgr w2)) as Hnotin.
  { rewrite Hl2, Hl1, !elem_of_app, !list_elem_of_singleton.
    intros [[Hin | [= ->]] | [= ->]]; [|done|done].
    by apply (not_in_order_without_ticket _ _ Horder Hnone). }
  split_and!.
  - unfold GetGMTicket, this. by rewrite Create_map, lookup_insert_eq.
  - rewrite Hcount, Hl3. by apply list_lookup_middle.
  - intros pos Hret. destruct (decide (pos < GetTicketCount this)) as [Hpos|Hpos].
    + assert (N.to_nat pos < length (m_GMTicketListByCreatingOrder (sTicketMgr w2)))%nat
        as Hlt by lia.
      destruct (lookup_lt_is_Some_2 _ _ Hlt) as [p Hp].
      assert (m_GMTicketListByCreatingOrder this !! N.to_nat pos = Some p) as Hp'
        by (rewrite Hl3; by rewrite lookup_app_l).
      rewrite (GetGMTicketByOrderPos_within this pos p Hpos Hp') in Hret.
      injection Hret as ->. apply Hnotin. apply list_elem_of_lookup. eauto.
    + rewrite GetGMTicketByOrderPos_beyond in Hret by lia. done.
Qed.

Lemma empty_guid_hides_next_ticket_witness :
  let this := sTicketMgr (Create (MkGuid 42) "help stuck" 1000
                            (Create ObjectGuid_empty "b" 2
                               (Create ObjectGuid_empty "a" 1 World_new))) in
  Forall owner_given []
  ∧ MkGuid 42 ≠ ObjectGuid_empty
  ∧ GetGMTicket (MkGuid 42) this = TicketAt (MkGuid 42)
  ∧ GetTicketCount this = 2
  ∧ ∀ pos, GetGMTicketByOrderPos pos this ≠ Returns (TicketAt (MkGuid 42)).
Proof.
  intros this.
  assert (MkGuid 42 ≠ ObjectGuid_empty) as H42 by done.
  destruct (empty_guid_hides_next_ticket [] "a" "b" "help stuck" 1 2 1000 (MkGuid 42)
              (Forall_nil_2 owner_given) H42 eq_refl) as (Hfound & _ & Hhidden).
  split_and!; [apply Forall_nil_2 | exact H42 | exact Hfound | reflexivity | exact Hhidden].
Defined.

(** X12.  No sequence of [Create] and [Delete] calls changes the accept
    flag: it stays what the last [SetAcceptTickets] made it, and in a
    registry where [SetAcceptTickets] was never called it is true. *)
Theorem calls_keep_accept_flag (calls : list Call) (w : World) (accept : bool) :
  WillAcceptTickets (sTicketMgr (run calls w)) = WillAcceptTickets (sTicketMgr w)
  ∧ WillAcceptTickets
      (sTicketMgr (run calls (MkWorld (SetAcceptTickets accept (sTicketMgr w))
                                      (CharacterDatabase w)))) = accept
  ∧ WillAcceptTickets (sTicketMgr (run calls World_new)) = true.
Proof.
  assert (∀ w0, WillAcceptTickets (sTicketMgr (run calls w0))
                = WillAcceptTickets (sTicketMgr w0)) as Hkeep.
  { induction calls as [|c calls IH] using rev_ind; intros w0; [done|].
    rewrite run_snoc. unfold WillAcceptTickets in *.
    destruct c; simpl; [rewrite Create_flag | rewrite Delete_flag]; apply IH. }
  split_and!; [apply Hkeep | by rewrite Hkeep | by rewrite Hkeep].
Qed.

(** X13.  In any state whatever, after [Create] the lookup by owner
    returns the pointer of a ticket with that owner, the given text, the
    time of the call and no response, whatever ticket the owner had
    before; the count is positive and the pointer is the last element of
    the creation order. *)
Theorem Create_then_lookup (w : World) (guid : ObjectGuid) (text : string) (now : Z) :
  let this' := sTicketMgr (Create guid text now w) in
  GetGMTicket guid this' = TicketAt guid
  ∧ (∃ t, ticket_of guid this' = Some t
          ∧ GetPlayerGuid t = guid ∧ GetText t = text
          ∧ m_lastUpdate t = now ∧ HasResponse t = false)
  ∧ 0 < GetTicketCount this'
  ∧ last (m_GMTicketListByCreatingOrder this') = Some (TicketAt guid).
Proof.
  intros this'.
  assert (m_GMTicketMap this' !! guid = Some (MkTicket guid text EmptyString now)) as Hnew
    by (unfold this'; by rewrite Create_map, lookup_insert_eq).
  split_and!.
  - unfold GetGMTicket. by rewrite Hnew.
  - exists (MkTicket guid text EmptyString now).
    split; [|done]. unfold ticket_of, GetGMTicket. by rewrite Hnew.
  - unfold GetTicketCount. pose proof (map_size_pos _ guid (mk_is_Some _ _ Hnew)). lia.
  - destruct (Create_list_snoc w guid text now) as (l0 & Hl0 & _).
    unfold this'. rewrite Hl0. apply last_snoc.
Qed.

(** X14.  In any state, [Create] raises the count by one when the owner
    had no ticket and leaves it when the owner had one; [Delete] lowers
    it by one when the owner had a ticket, and for an owner without a
    ticket changes nothing and makes no database call. *)
Theorem count_after_call (w : World) (guid : ObjectGuid) (text : string) (now : Z) :
  let count w := GetTicketCount (sTicketMgr w) in
  match m_GMTicketMap (sTicketMgr w) !! guid with
  | Some _ =>
      count (Create guid text now w) = count w
      ∧ count (Delete guid w) + 1 = count w
  | None =>
      count (Create guid text now w) = count w + 1
      ∧ Delete guid w = w
  end.
Proof.
  intros count. unfold count.
  destruct (m_GMTicketMap (sTicketMgr w) !! guid) as [old|] eqn:Hold.
  - split.
    + apply GetTicketCount_Create_present. eauto.
    + unfold GetTicketCount. rewrite Delete_map, map_size_delete_Some by eauto.
      pose proof (map_size_pos _ guid (mk_is_Some _ _ Hold)). lia.
  - split.
    + by apply GetTicketCount_Create_fresh.
    + by apply Delete_absent.
Qed.
